(** * Multimodal-RAG: the ingestion, chunking and keyword-search engine

    A shallow embedding of [main.py] (class [MultimodalRAG] and the FastAPI
    handlers built by [create_basic_server]) together with the properties of
    the engine that the design document states.

    Conventions of the embedding:
    - a Python [str] is a list of characters; characters are the 8-bit code
      points (ASCII and Latin-1), on which [str.lower] and [str.isspace] are
      given exactly;
    - a Python [bytes] is a list of [Byte.byte];
    - a Python [int] is a [Z]; [len] returns a [Z];
    - a Python [dict] is an association list in insertion order, without
      repeated keys ([dict_wf]); assigning to an existing key keeps its place;
    - a Python exception is a value of the [Exc] monad; [try]/[except] is
      [try_except];
    - third-party libraries (PyPDF2, python-docx, moviepy, librosa), the UTF-8
      codec and [pathlib] are the fields of a [Runtime]; every theorem holds
      for all runtimes.

    The theorems use [lower] through the tests the code itself makes
    ([query.lower() in text.lower()], [find]), so they do not depend on
    lower-casing keeping lengths or positions.  The one exception is
    [snippet_shows_the_match], which is a statement about 8-bit characters,
    where lower-casing is character by character. *)

From Stdlib Require Import List Ascii String ZArith NArith Bool Lia QArith.
From Stdlib Require Strings.Byte.
Import ListNotations.

Local Open Scope Z_scope.
Local Open Scope list_scope.

(* ================================================================== *)
(** ** Python strings *)

Module Py.

Definition str := list ascii.
Definition bytes := list Byte.byte.

(** A string literal. *)
Definition lit (s : string) : str := list_ascii_of_string s.

(** A bytes literal, [b"..."]. *)
Definition blit (s : string) : bytes := list_byte_of_string s.

Definition len {A : Type} (s : list A) : Z := Z.of_nat (List.length s).

Definition str_eqb (a b : str) : bool :=
  if list_eq_dec ascii_dec a b then true else false.

(** [x in l] for a list of strings. *)
Definition list_in (x : str) (l : list str) : bool := existsb (str_eqb x) l.

(** [str.lower] on code points below 256: [A-Z] and the Latin-1 capitals
    (U+00C0..U+00DE without the multiplication sign U+00D7) move up by 32. *)
Definition lower_char (c : ascii) : ascii :=
  let n := N_of_ascii c in
  if (((65 <=? n) && (n <=? 90)) ||
      ((192 <=? n) && (n <=? 222) && negb (n =? 215)))%N
  then ascii_of_N (n + 32)
  else c.

Definition lower (s : str) : str := map lower_char s.

(** [str.isspace] on code points below 256: TAB..CR, FS..US, space, NEL
    and the no-break space. *)
Definition isspace (c : ascii) : bool :=
  let n := N_of_ascii c in
  (((9 <=? n) && (n <=? 13)) || ((28 <=? n) && (n <=? 32)) ||
   (n =? 133) || (n =? 160))%N.

(** [s.split()]: the maximal runs of non-whitespace characters.  [cur] holds
    the word being read, last character first. *)
Fixpoint split_from (cur : str) (s : str) : list str :=
  match s with
  | [] => match cur with [] => [] | _ :: _ => [rev cur] end
  | c :: s' =>
      if isspace c
      then match cur with
           | [] => split_from [] s'
           | _ :: _ => rev cur :: split_from [] s'
           end
      else split_from (c :: cur) s'
  end.

Definition split (s : str) : list str := split_from [] s.

(** [sep.join(l)]. *)
Fixpoint join (sep : str) (l : list str) : str :=
  match l with
  | [] => []
  | x :: rest =>
      match rest with
      | [] => x
      | _ :: _ => x ++ sep ++ join sep rest
      end
  end.

(** [s.startswith(pre)]. *)
Fixpoint startswith (s pre : str) {struct pre} : bool :=
  match pre with
  | [] => true
  | p :: pre' =>
      match s with
      | [] => false
      | c :: s' => Ascii.eqb c p && startswith s' pre'
      end
  end.

(** [sub in s]. *)
Fixpoint contains (s sub : str) : bool :=
  startswith s sub ||
  match s with
  | [] => false
  | _ :: s' => contains s' sub
  end.

(** [s.find(sub)], counted from [i]: the lowest index of an occurrence, or
    [-1]. *)
Fixpoint find_from (i : Z) (s sub : str) : Z :=
  if startswith s sub then i
  else match s with
       | [] => -1
       | _ :: s' => find_from (i + 1) s' sub
       end.

Definition find (s sub : str) : Z := find_from 0 s sub.

(** Slice bounds as CPython adjusts them: a negative index counts from the
    end, and the result is clipped to [0, len]. *)
Definition adjust_index (n i : Z) : Z :=
  let j := if i <? 0 then i + n else i in
  Z.max 0 (Z.min n j).

(** [s[lo:hi]]. *)
Definition slice (s : str) (lo hi : Z) : str :=
  let n := len s in
  let a := adjust_index n lo in
  let b := adjust_index n hi in
  firstn (Z.to_nat (b - a)) (skipn (Z.to_nat a) s).

(** [s.strip()]. *)
Fixpoint lstrip (s : str) : str :=
  match s with
  | [] => []
  | c :: s' => if isspace c then lstrip s' else s
  end.

Definition strip (s : str) : str := rev (lstrip (rev (lstrip s))).

(** [s.split(',')]: the pieces between commas, empty ones included. *)
Fixpoint split_on_from (sep : ascii) (cur : str) (s : str) : list str :=
  match s with
  | [] => [rev cur]
  | c :: s' =>
      if Ascii.eqb c sep
      then rev cur :: split_on_from sep [] s'
      else split_on_from sep (c :: cur) s'
  end.

Definition split_on (sep : ascii) (s : str) : list str :=
  split_on_from sep [] s.

(** Truthiness of a sequence: empty is false. *)
Definition truthy {A : Type} (l : list A) : bool :=
  match l with [] => false | _ :: _ => true end.

End Py.

Import Py.

(* ================================================================== *)
(** ** [hashlib.md5(...).hexdigest()] (RFC 1321) *)

Module MD5.

(** 32-bit words are [Z] reduced modulo [2^32]. *)
Definition wrap (x : Z) : Z := x mod 4294967296.
Definition add32 (x y : Z) : Z := wrap (x + y).
Definition not32 (x : Z) : Z := Z.lxor x 4294967295.
Definition rotl32 (x n : Z) : Z :=
  wrap (Z.lor (Z.shiftl x n) (Z.shiftr x (32 - n))).

(** [K i] is the integer part of [2^32 * abs (sin (i + 1))]. *)
Definition K : list Z :=
  [3614090360; 3905402710; 606105819; 3250441966;
   4118548399; 1200080426; 2821735955; 4249261313;
   1770035416; 2336552879; 4294925233; 2304563134;
   1804603682; 4254626195; 2792965006; 1236535329;
   4129170786; 3225465664; 643717713; 3921069994;
   3593408605; 38016083; 3634488961; 3889429448;
   568446438; 3275163606; 4107603335; 1163531501;
   2850285829; 4243563512; 1735328473; 2368359562;
   4294588738; 2272392833; 1839030562; 4259657740;
   2763975236; 1272893353; 4139469664; 3200236656;
   681279174; 3936430074; 3572445317; 76029189;
   3654602809; 3873151461; 530742520; 3299628645;
   4096336452; 1126891415; 2878612391; 4237533241;
   1700485571; 2399980690; 4293915773; 2240044497;
   1873313359; 4264355552; 2734768916; 1309151649;
   4149444226; 3174756917; 718787259; 3951481745].

(** Per-round shift amounts. *)
Definition shifts : list Z :=
  [7; 12; 17; 22; 7; 12; 17; 22; 7; 12; 17; 22; 7; 12; 17; 22;
   5; 9; 14; 20; 5; 9; 14; 20; 5; 9; 14; 20; 5; 9; 14; 20;
   4; 11; 16; 23; 4; 11; 16; 23; 4; 11; 16; 23; 4; 11; 16; 23;
   6; 10; 15; 21; 6; 10; 15; 21; 6; 10; 15; 21; 6; 10; 15; 21].

(** The message followed by 0x80, zeros up to 56 modulo 64, and the bit
    length as 8 little-endian bytes. *)
Definition le_bytes (n : nat) (x : Z) : list Z :=
  map (fun k => Z.shiftr x (8 * Z.of_nat k) mod 256) (seq 0 n).

Definition pad (msg : list Z) : list Z :=
  let n := Z.of_nat (List.length msg) in
  let zeros := Z.to_nat ((55 - n) mod 64) in
  msg ++ [128] ++ repeat 0 zeros ++ le_bytes 8 ((8 * n) mod 2 ^ 64).

(** Little-endian 32-bit words of a byte sequence. *)
Fixpoint words_of (l : list Z) : list Z :=
  match l with
  | a :: b :: c :: d :: rest =>
      (a + 256 * b + 65536 * c + 16777216 * d) :: words_of rest
  | _ => []
  end.

Fixpoint blocks_of (fuel : nat) (ws : list Z) : list (list Z) :=
  match fuel with
  | O => []
  | S fuel' =>
      match ws with
      | [] => []
      | _ :: _ => firstn 16 ws :: blocks_of fuel' (skipn 16 ws)
      end
  end.

Record regs := mkregs { rA : Z; rB : Z; rC : Z; rD : Z }.

Definition round (M : list Z) (r : regs) (i : nat) : regs :=
  let '(mkregs A B C D) := r in
  let zi := Z.of_nat i in
  let '(F, g) :=
    if zi <? 16 then (Z.lor (Z.land B C) (Z.land (not32 B) D), zi)
    else if zi <? 32 then (Z.lor (Z.land D B) (Z.land (not32 D) C), (5 * zi + 1) mod 16)
    else if zi <? 48 then (Z.lxor (Z.lxor B C) D, (3 * zi + 5) mod 16)
    else (Z.lxor C (Z.lor B (not32 D)), (7 * zi) mod 16) in
  let F' := wrap (F + A + nth i K 0 + nth (Z.to_nat g) M 0) in
  mkregs D (add32 B (rotl32 F' (nth i shifts 0))) B C.

Definition process_block (r : regs) (M : list Z) : regs :=
  let r' := fold_left (round M) (seq 0 64) r in
  mkregs (add32 (rA r) (rA r')) (add32 (rB r) (rB r'))
         (add32 (rC r) (rC r')) (add32 (rD r) (rD r')).

Definition init : regs := mkregs 1732584193 4023233417 2562383102 271733878.

Definition digest (msg : bytes) : list Z :=
  let ws := words_of (pad (map (fun b => Z.of_N (Byte.to_N b)) msg)) in
  let r := fold_left process_block (blocks_of (List.length ws) ws) init in
  le_bytes 4 (rA r) ++ le_bytes 4 (rB r) ++ le_bytes 4 (rC r) ++ le_bytes 4 (rD r).

Definition hex_digit (d : Z) : ascii :=
  ascii_of_N (Z.to_N (if d <? 10 then 48 + d else 87 + d)).

Definition hexdigest (msg : bytes) : str :=
  flat_map (fun b => [hex_digit (b / 16); hex_digit (b mod 16)]) (digest msg).

End MD5.

(* ================================================================== *)
(** ** [_chunk_text] *)

Module ChunkLoop.

(** The three locals of the loop of [_chunk_text]. *)
Record t := mk {
  chunks : list str;
  current_chunk : list str;
  current_size : Z
}.

Definition init : t := mk [] [] 0.

(** One iteration of [for word in words]. *)
Definition step (chunk_size : Z) (st : t) (word : str) : t :=
  if (current_size st + len word >? chunk_size) && truthy (current_chunk st)
  then mk (chunks st ++ [join (lit " ") (current_chunk st)])
          [word]
          (len word)
  else mk (chunks st)
          (current_chunk st ++ [word])
          (current_size st + len word + 1).

(** The statement after the loop: flush the last chunk. *)
Definition finish (st : t) : list str :=
  if truthy (current_chunk st)
  then chunks st ++ [join (lit " ") (current_chunk st)]
  else chunks st.

End ChunkLoop.

Definition default_chunk_size : Z := 500.

Definition _chunk_text (text : str) (chunk_size : Z) : list str :=
  let words := split text in
  ChunkLoop.finish (fold_left (ChunkLoop.step chunk_size) words ChunkLoop.init).

(* ================================================================== *)
(** ** Exceptions *)

(** The exceptions the extractors tell apart: [ImportError], and any other
    subclass of [Exception]; each carries its [str(e)]. *)
Inductive exn :=
| ImportError (msg : str)
| Exception (msg : str).

Inductive Exc (A : Type) :=
| Return (a : A)
| Raise (e : exn).

Arguments Return {A} a.
Arguments Raise {A} e.

Definition bind {A B : Type} (m : Exc A) (k : A -> Exc B) : Exc B :=
  match m with
  | Return a => k a
  | Raise e => Raise e
  end.

Notation "x <- m ;; k" := (bind m (fun x => k))
  (at level 61, m at next level, right associativity).

(** [try: body  except ...: handler]. *)
Definition try_except {A : Type} (body : Exc A) (handler : exn -> Exc A) : Exc A :=
  match body with
  | Return a => Return a
  | Raise e => handler e
  end.

(* ================================================================== *)
(** ** Dictionaries *)

Definition dict (V : Type) := list (str * V).

Fixpoint dict_get {V : Type} (d : dict V) (k : str) : option V :=
  match d with
  | [] => None
  | (k', v) :: d' => if str_eqb k' k then Some v else dict_get d' k
  end.

(** [d[k] = v]: replaces the value in place, or appends a new item. *)
Fixpoint dict_set {V : Type} (d : dict V) (k : str) (v : V) : dict V :=
  match d with
  | [] => [(k, v)]
  | (k', v') :: d' =>
      if str_eqb k' k then (k', v) :: d' else (k', v') :: dict_set d' k v
  end.

Definition keys {V : Type} (d : dict V) : list str := map fst d.

(** How many items of [d] have the key [k]. *)
Definition count_key {V : Type} (d : dict V) (k : str) : nat :=
  List.length (filter (fun kv => str_eqb (fst kv) k) d).

(* ================================================================== *)
(** ** Records of the index *)

(** A record of [self.metadata].  The five common keys are read with
    [metadata[...]]; the others are there for one kind only. *)
Record Metadata := mkMetadata {
  filename : str;
  file_type : str;
  file_extension : str;
  file_hash : str;
  file_path : str;
  text_content : option str;
  full_text_length : option Z;
  chunks : option (list str);
  duration : option Q;
  transcription : option str;
  frames_extracted : option Z;
  sample_rate : option Z
}.

(** [d.get(key, default)]. *)
Definition get_or {A : Type} (o : option A) (default : A) : A :=
  match o with Some a => a | None => default end.

(** What [process_document], [process_video] and [process_audio] return. *)
Record Response := mkResponse {
  r_file_hash : str;
  r_status : str;
  r_type : str;
  r_text_preview : option str;
  r_chunks_count : option Z;
  r_duration : option Q;
  r_transcription_preview : option str
}.

Module Result.
(** An item of the list returned by [search]. *)
Record t := mk {
  file_hash : str;
  filename : str;
  file_type : str;
  relevance_snippet : str;
  metadata : Metadata
}.
End Result.

Module Listing.
(** An item of the list returned by [list_files]. *)
Record t := mk {
  file_hash : str;
  filename : str;
  file_type : str;
  file_extension : str
}.
End Listing.

(** The dictionaries returned by [_extract_video_info] and
    [_extract_audio_info]; every return statement gives all three keys. *)
Record VideoInfo := mkVideoInfo {
  vi_duration : Q;
  vi_transcription : str;
  vi_frames_count : Z
}.

Record AudioInfo := mkAudioInfo {
  ai_duration : Q;
  ai_transcription : str;
  ai_sample_rate : Z
}.

(* ================================================================== *)
(** ** The runtime the engine calls into *)

Record Runtime := mkRuntime {
  (** [file_content.decode('utf-8', errors='ignore')] *)
  decode_utf8_ignore : bytes -> str;
  (** [Path(filename).suffix] *)
  path_suffix : str -> str;
  (** [import PyPDF2] *)
  import_PyPDF2 : Exc unit;
  (** [PyPDF2.PdfReader(io.BytesIO(file_content)).pages], and for each page
      the outcome of [page.extract_text()] *)
  PdfReader_pages : bytes -> Exc (list (Exc str));
  (** [from docx import Document] *)
  import_docx : Exc unit;
  (** [Document(io.BytesIO(file_content)).paragraphs], each with its [text] *)
  Document_paragraphs : bytes -> Exc (list str);
  (** [from moviepy.editor import VideoFileClip] *)
  import_moviepy : Exc unit;
  (** [VideoFileClip(path).duration] for the file found at [path] *)
  VideoFileClip_duration : str -> option bytes -> Exc Q;
  (** [clip.close()] *)
  clip_close : Exc unit;
  (** [import librosa] *)
  import_librosa : Exc unit;
  (** [librosa.load(path)] followed by [librosa.get_duration]: the duration
      and the sample rate *)
  librosa_load : str -> option bytes -> Exc (Q * Z)
}.

(** [int(x)] on a number: truncation towards zero. *)
Definition int_of (x : Q) : Z := Z.quot (Qnum x) (Zpos (Qden x)).

(* ================================================================== *)
(** ** The engine: class [MultimodalRAG] *)

(** An instance of [MultimodalRAG] together with the storage directory it
    works on: [files] are the blobs on disk by path, [metadata_json] is the
    content of [metadata.json] when that file exists. *)
Record State := mkState {
  doc_dir : str;
  video_dir : str;
  audio_dir : str;
  embeddings_dir : str;
  files : dict bytes;
  metadata_json : option (dict Metadata);
  metadata : dict Metadata
}.

(** [dir / name] for a relative [name]. *)
Definition path_join (dir name : str) : str := dir ++ lit "/" ++ name.

Definition _load_metadata (snapshot : option (dict Metadata)) : dict Metadata :=
  match snapshot with
  | Some d => d
  | None => []
  end.

(** [MultimodalRAG(storage_dir)] on a directory holding [disk] and possibly
    a snapshot. *)
Definition __init__ (storage_dir : str) (disk : dict bytes)
    (snapshot : option (dict Metadata)) : State :=
  mkState (path_join storage_dir (lit "documents"))
          (path_join storage_dir (lit "videos"))
          (path_join storage_dir (lit "audio"))
          (path_join storage_dir (lit "embeddings"))
          disk snapshot (_load_metadata snapshot).

Definition _save_metadata (st : State) : State :=
  mkState (doc_dir st) (video_dir st) (audio_dir st) (embeddings_dir st)
          (files st) (Some (metadata st)) (metadata st).

(** [with open(path, 'wb') as f: f.write(content)]. *)
Definition write_file (st : State) (path : str) (content : bytes) : State :=
  mkState (doc_dir st) (video_dir st) (audio_dir st) (embeddings_dir st)
          (dict_set (files st) path content) (metadata_json st) (metadata st).

(** [self.metadata[file_hash] = metadata]. *)
Definition set_metadata (st : State) (h : str) (m : Metadata) : State :=
  mkState (doc_dir st) (video_dir st) (audio_dir st) (embeddings_dir st)
          (files st) (metadata_json st) (dict_set (metadata st) h m).

Definition _get_file_hash (file_content : bytes) : str :=
  MD5.hexdigest file_content.

Definition newline : str := [ascii_of_nat 10].

Section Engine.

Variable rt : Runtime.

Definition _extract_pdf_text (file_content : bytes) : Exc str :=
  try_except
    (_ <- import_PyPDF2 rt ;;
     pages <- PdfReader_pages rt file_content ;;
     fold_left
       (fun acc page => text <- acc ;; t <- page ;; Return (text ++ t ++ newline))
       pages (Return []))
    (fun e =>
       match e with
       | ImportError _ => Return (lit "PDF text extraction requires PyPDF2 library")
       | Exception msg => Return (lit "Error extracting PDF text: " ++ msg)
       end).

Definition _extract_docx_text (file_content : bytes) : Exc str :=
  try_except
    (_ <- import_docx rt ;;
     paragraphs <- Document_paragraphs rt file_content ;;
     Return (fold_left (fun text p => text ++ p ++ newline) paragraphs []))
    (fun e =>
       match e with
       | ImportError _ => Return (lit "DOCX text extraction requires python-docx library")
       | Exception msg => Return (lit "Error extracting DOCX text: " ++ msg)
       end).

Definition _extract_video_info (st : State) (path : str) : Exc VideoInfo :=
  try_except
    (_ <- import_moviepy rt ;;
     duration <- VideoFileClip_duration rt path (dict_get (files st) path) ;;
     let frames_count := Z.min 10 (int_of duration) in
     let transcription :=
       lit "Video transcription requires Whisper or similar speech-to-text service" in
     _ <- clip_close rt ;;
     Return (mkVideoInfo duration transcription frames_count))
    (fun e =>
       match e with
       | ImportError _ =>
           Return (mkVideoInfo 0 (lit "Video processing requires moviepy library") 0)
       | Exception msg =>
           Return (mkVideoInfo 0 (lit "Error processing video: " ++ msg) 0)
       end).

Definition _extract_audio_info (st : State) (path : str) : Exc AudioInfo :=
  try_except
    (_ <- import_librosa rt ;;
     loaded <- librosa_load rt path (dict_get (files st) path) ;;
     let '(duration, sr) := loaded in
     let transcription :=
       lit "Audio transcription requires Whisper or similar speech-to-text service" in
     Return (mkAudioInfo duration transcription sr))
    (fun e =>
       match e with
       | ImportError _ =>
           Return (mkAudioInfo 0 (lit "Audio processing requires librosa library") 0)
       | Exception msg =>
           Return (mkAudioInfo 0 (lit "Error processing audio: " ++ msg) 0)
       end).

(** The chain [if file_ext == '.txt': ... elif ... else: ...] of
    [process_document], which computes [text_content]. *)
Definition document_text (file_ext : str) (file_content : bytes) : Exc str :=
  if str_eqb file_ext (lit ".txt")
  then Return (decode_utf8_ignore rt file_content)
  else if str_eqb file_ext (lit ".pdf")
  then _extract_pdf_text file_content
  else if list_in file_ext [lit ".docx"; lit ".doc"]
  then _extract_docx_text file_content
  else Return (lit "Unsupported document type: " ++ file_ext).

Definition process_document (st : State) (file_content : bytes) (fname : str)
    : Exc (State * Response) :=
  let h := _get_file_hash file_content in
  let file_ext := lower (path_suffix rt fname) in
  let saved_path := path_join (doc_dir st) (h ++ file_ext) in
  let st := write_file st saved_path file_content in
  text <- document_text file_ext file_content ;;
  let m :=
    mkMetadata fname (lit "document") file_ext h saved_path
      (Some (slice text 0 1000))
      (Some (len text))
      (Some (_chunk_text text default_chunk_size))
      None None None None in
  let st := set_metadata st h m in
  let st := _save_metadata st in
  Return (st,
          mkResponse h (lit "processed") (lit "document")
            (Some (slice text 0 200))
            (Some (len (get_or (chunks m) [])))
            None None).

Definition process_video (st : State) (file_content : bytes) (fname : str)
    : Exc (State * Response) :=
  let h := _get_file_hash file_content in
  let file_ext := lower (path_suffix rt fname) in
  let saved_path := path_join (video_dir st) (h ++ file_ext) in
  let st := write_file st saved_path file_content in
  video_info <- _extract_video_info st saved_path ;;
  let m :=
    mkMetadata fname (lit "video") file_ext h saved_path
      None None None
      (Some (vi_duration video_info))
      (Some (vi_transcription video_info))
      (Some (vi_frames_count video_info))
      None in
  let st := set_metadata st h m in
  let st := _save_metadata st in
  Return (st,
          mkResponse h (lit "processed") (lit "video") None None
            (duration m)
            (Some (slice (get_or (transcription m) []) 0 200))).

Definition process_audio (st : State) (file_content : bytes) (fname : str)
    : Exc (State * Response) :=
  let h := _get_file_hash file_content in
  let file_ext := lower (path_suffix rt fname) in
  let saved_path := path_join (audio_dir st) (h ++ file_ext) in
  let st := write_file st saved_path file_content in
  audio_info <- _extract_audio_info st saved_path ;;
  let m :=
    mkMetadata fname (lit "audio") file_ext h saved_path
      None None None
      (Some (ai_duration audio_info))
      (Some (ai_transcription audio_info))
      None
      (Some (ai_sample_rate audio_info)) in
  let st := set_metadata st h m in
  let st := _save_metadata st in
  Return (st,
          mkResponse h (lit "processed") (lit "audio") None None
            (duration m)
            (Some (slice (get_or (transcription m) []) 0 200))).

End Engine.

(** The three declared kinds, one per ingestion entry point. *)
Inductive Kind := document | video | audio.

Definition kind_name (k : Kind) : str :=
  match k with
  | document => lit "document"
  | video => lit "video"
  | audio => lit "audio"
  end.

Definition kind_dir (st : State) (k : Kind) : str :=
  match k with
  | document => doc_dir st
  | video => video_dir st
  | audio => audio_dir st
  end.

Definition process (rt : Runtime) (k : Kind)
    : State -> bytes -> str -> Exc (State * Response) :=
  match k with
  | document => process_document rt
  | video => process_video rt
  | audio => process_audio rt
  end.

(** The key-uniqueness of a dictionary, as a check. *)
Fixpoint distinct (l : list str) : bool :=
  match l with
  | [] => true
  | x :: rest => negb (list_in x rest) && distinct rest
  end.

Definition dict_wf {V : Type} (d : dict V) : Prop := distinct (keys d) = true.

(** The directories of an engine created on [storage_dir]. *)
Definition rooted_at (storage_dir : str) (st : State) : Prop :=
  doc_dir st = path_join storage_dir (lit "documents") /\
  video_dir st = path_join storage_dir (lit "videos") /\
  audio_dir st = path_join storage_dir (lit "audio").

(* ================================================================== *)
(** ** Search *)

Definition default_context_size : Z := 100.

Definition ellipsis : str := lit "...".

Definition _get_snippet (text query : str) (context_size : Z) : str :=
  let lower_text := lower text in
  let lower_query := lower query in
  let index := find lower_text lower_query in
  if index =? -1
  then slice text 0 context_size ++ ellipsis
  else
    let start := Z.max 0 (index - context_size / 2) in
    let end_ := Z.min (len text) (index + len query + context_size / 2) in
    let snippet := slice text start end_ in
    let snippet := if start >? 0 then ellipsis ++ snippet else snippet in
    let snippet := if end_ <? len text then snippet ++ ellipsis else snippet in
    snippet.

(** The guard of the [continue]:
    [file_types and metadata['file_type'] not in file_types]. *)
Definition excluded (file_types : option (list str)) (m : Metadata) : bool :=
  match file_types with
  | None => false
  | Some l => truthy l && negb (list_in (file_type m) l)
  end.

(** The text the query is matched against. *)
Definition content_to_search (m : Metadata) : str :=
  if str_eqb (file_type m) (lit "document")
  then get_or (text_content m) []
  else get_or (transcription m) [].

(** The test [query.lower() in content_to_search.lower()]. *)
Definition matches (query : str) (m : Metadata) : bool :=
  contains (lower (content_to_search m)) (lower query).

(** The dictionary appended to [results] for a matching item. *)
Definition result_of (query : str) (item : str * Metadata) : Result.t :=
  let '(h, m) := item in
  Result.mk h (filename m) (file_type m)
    (_get_snippet (content_to_search m) query default_context_size) m.

(** The body of the loop of [search], on one item of [self.metadata]. *)
Definition search_step (query : str) (file_types : option (list str))
    (results : list Result.t) (item : str * Metadata) : list Result.t :=
  if excluded file_types (snd item) then results
  else if matches query (snd item)
  then results ++ [result_of query item]
  else results.

Definition search (st : State) (query : str) (file_types : option (list str))
    : list Result.t :=
  fold_left (search_step query file_types) (metadata st) [].

Definition get_file_info (st : State) (h : str) : option Metadata :=
  dict_get (metadata st) h.

Definition list_files (st : State) : list Listing.t :=
  map (fun item : str * Metadata =>
         Listing.mk (fst item) (filename (snd item)) (file_type (snd item))
           (file_extension (snd item)))
      (metadata st).

(* ================================================================== *)
(** ** The HTTP handlers of [create_basic_server] *)

Inductive HTTP (A : Type) :=
| OK (body : A)
| HTTPException (status_code : Z) (detail : str).

Arguments OK {A} body.
Arguments HTTPException {A} status_code detail.

(** A call of a handler into [rag_system]. *)
Inductive EngineCall :=
| CallSearch (query : str) (file_types : option (list str))
| CallProcess (kind : str) (file_content : bytes) (fname : str).

Record SearchReply := mkSearchReply {
  reply_query : str;
  reply_results : list Result.t;
  reply_count : Z
}.

(** [GET /search]: the calls made into the engine, and the reply. *)
Definition search_files (st : State) (query : str) (file_types : option str)
    : list EngineCall * HTTP SearchReply :=
  if negb (truthy query)
  then ([], HTTPException 400 (lit "Query parameter is required"))
  else
    let types_list :=
      match file_types with
      | None => None
      | Some ft =>
          if truthy ft then Some (map strip (split_on ","%char ft)) else None
      end in
    let results := search st query types_list in
    ([CallSearch query types_list],
     OK (mkSearchReply query results (len results))).

Section Handlers.

Variable rt : Runtime.

(** The shape shared by the three upload routes. *)
Definition upload (kind : str) (allowed : list str)
    (process : State -> bytes -> str -> Exc (State * Response))
    (unsupported : str)
    (st : State) (file_filename : option str) (content : bytes)
    : list EngineCall * Exc (State * HTTP Response) :=
  match file_filename with
  | None => ([], Return (st, HTTPException 400 (lit "No file provided")))
  | Some fname =>
      if negb (truthy fname)
      then ([], Return (st, HTTPException 400 (lit "No file provided")))
      else
        let file_ext := lower (path_suffix rt fname) in
        if negb (list_in file_ext allowed)
        then ([], Return (st, HTTPException 400 unsupported))
        else ([CallProcess kind content fname],
              r <- process st content fname ;;
              Return (fst r, OK (snd r)))
  end.

Definition upload_document :=
  upload (lit "document") [lit ".pdf"; lit ".txt"; lit ".docx"; lit ".doc"]
    (process_document rt) (lit "Unsupported document type").

Definition upload_video :=
  upload (lit "video") [lit ".mp4"; lit ".avi"; lit ".mov"; lit ".mkv"]
    (process_video rt) (lit "Unsupported video type").

Definition upload_audio :=
  upload (lit "audio") [lit ".mp3"; lit ".wav"; lit ".m4a"; lit ".aac"; lit ".flac"]
    (process_audio rt) (lit "Unsupported audio type").

End Handlers.

(* ================================================================== *)
(** ** A runtime with no third-party library installed *)

(** [Path(name).suffix] for a plain file name: from the last dot on, when
    that dot is neither the first nor the last character. *)
Fixpoint rfind_dot (i : Z) (s : str) : Z :=
  match s with
  | [] => -1
  | c :: s' =>
      let r := rfind_dot (i + 1) s' in
      if 0 <=? r then r else if Ascii.eqb c "."%char then i else -1
  end.

Definition plain_suffix (name : str) : str :=
  let i := rfind_dot 0 name in
  if (0 <? i) && (i <? len name - 1) then skipn (Z.to_nat i) name else [].

(** Decoding of ASCII bytes; any other byte is dropped. *)
Definition decode_ascii (b : bytes) : str :=
  flat_map (fun x => if (Byte.to_N x <? 128)%N
                     then [ascii_of_N (Byte.to_N x)] else []) b.

Definition no_module (name : string) : exn :=
  ImportError (lit "No module named '" ++ lit name ++ lit "'").

Definition bare_runtime : Runtime :=
  mkRuntime decode_ascii plain_suffix
    (Raise (no_module "PyPDF2")) (fun _ => Raise (no_module "PyPDF2"))
    (Raise (no_module "docx")) (fun _ => Raise (no_module "docx"))
    (Raise (no_module "moviepy")) (fun _ _ => Raise (no_module "moviepy"))
    (Return tt)
    (Raise (no_module "librosa")) (fun _ _ => Raise (no_module "librosa")).

(** A runtime whose PDF reader rejects every file. *)
Definition broken_pdf_runtime : Runtime :=
  mkRuntime decode_ascii plain_suffix
    (Return tt) (fun _ => Raise (Exception (lit "EOF marker not found")))
    (Raise (no_module "docx")) (fun _ => Raise (no_module "docx"))
    (Raise (no_module "moviepy")) (fun _ _ => Raise (no_module "moviepy"))
    (Return tt)
    (Raise (no_module "librosa")) (fun _ _ => Raise (no_module "librosa")).

(** A runtime whose PDF reader finds two pages in every file. *)
Definition two_page_runtime : Runtime :=
  mkRuntime decode_ascii plain_suffix
    (Return tt) (fun _ => Return [Return (lit "page one"); Return (lit "page two")])
    (Raise (no_module "docx")) (fun _ => Raise (no_module "docx"))
    (Raise (no_module "moviepy")) (fun _ _ => Raise (no_module "moviepy"))
    (Return tt)
    (Raise (no_module "librosa")) (fun _ _ => Raise (no_module "librosa")).

(** A fresh engine on an empty directory [data]. *)
Definition fresh : State := __init__ (lit "data") [] None.

(** The items [search] keeps: not excluded by the filter, and matching. *)
Definition selected (query : str) (file_types : option (list str))
    (item : str * Metadata) : bool :=
  negb (excluded file_types (snd item)) && matches query (snd item).

(** The state after the three writes of an ingestion: the blob, the record,
    the snapshot. *)
Definition committed (st : State) (path : str) (content : bytes)
    (h : str) (m : Metadata) : State :=
  _save_metadata (set_metadata (write_file st path content) h m).

(** Where an ingestion of kind [k] stores the blob. *)
Definition blob_path (rt : Runtime) (st : State) (k : Kind)
    (content : bytes) (fname : str) : str :=
  path_join (kind_dir st k)
    (_get_file_hash content ++ lower (path_suffix rt fname)).

(** What the loop of [_chunk_text] maintains after reading the words [ws]:
    flushing now would give chunks that join back to [ws]. *)
Definition chunk_inv (st : ChunkLoop.t) (ws : list str) : Prop :=
  join (lit " ") (ChunkLoop.finish st) = join (lit " ") ws /\
  (ChunkLoop.current_chunk st = [] -> ws = [] /\ ChunkLoop.chunks st = []) /\
  (ws = [] -> ChunkLoop.current_chunk st = []).

(** A chunk is within the budget the loop really keeps: one character over
    [N] at most, unless it is a word of the text on its own. *)
Definition chunk_ok (N : Z) (words : list str) (c : str) : Prop :=
  len c <= N + 1 \/ In c words.

(** What the loop of [_chunk_text] maintains about sizes: the closed chunks
    are within the budget, the open chunk is a single word or within it, and
    [current_size] is the joined length of the open chunk, or one more. *)
Definition size_inv (N : Z) (words : list str) (st : ChunkLoop.t) : Prop :=
  (forall c, In c (ChunkLoop.chunks st) -> chunk_ok N words c) /\
  match ChunkLoop.current_chunk st with
  | [] => ChunkLoop.current_size st = 0
  | w :: rest =>
      len (join (lit " ") (w :: rest)) <= ChunkLoop.current_size st
      <= len (join (lit " ") (w :: rest)) + 1 /\
      ((rest = [] /\ In w words) \/ len (join (lit " ") (w :: rest)) <= N + 1)
  end.

(** Two ingestions in a row, of [b] as kind [k1] under the name [f1] and
    then as kind [k2] under the name [f2]: both return, and [P] holds of the
    state and the response after each. *)
Definition ingest_twice (rt : Runtime) (st : State) (b : bytes)
    (k1 : Kind) (f1 : str) (k2 : Kind) (f2 : str)
    (P : State -> Response -> State -> Response -> Prop) : Prop :=
  exists st1 r1 st2 r2,
    process rt k1 st b f1 = Return (st1, r1) /\
    process rt k2 st1 b f2 = Return (st2, r2) /\
    P st1 r1 st2 r2.

(** The items a query [S] and a kind filter [F] designate: the kind is a
    member of [F] and the searchable text contains [S], whatever the case. *)
Definition designated (S : str) (F : list str) (item : str * Metadata) : bool :=
  list_in (file_type (snd item)) F &&
  contains (lower (content_to_search (snd item))) (lower S).

(** [search(S, F)] returns exactly the designated records. *)
Definition search_returns_designated (st : State) (S : str) (F : list str) : Prop :=
  search st S (Some F) = map (result_of S) (filter (designated S F) (metadata st)).

(** The state of an engine after [rt] ingested one document. *)
Definition after_document (rt : Runtime) (st : State) (b : bytes) (f : str) : State :=
  match process_document rt st b f with
  | Return (st', _) => st'
  | Raise _ => st
  end.

(** An index holding the one document [hello.txt]. *)
Definition hello_index : State :=
  after_document bare_runtime fresh (blit "hello world") (lit "hello.txt").



(** The text each extractor's [except] clauses turn an exception into. *)
Definition pdf_placeholder (e : exn) : str :=
  match e with
  | ImportError _ => lit "PDF text extraction requires PyPDF2 library"
  | Exception msg => lit "Error extracting PDF text: " ++ msg
  end.

Definition docx_placeholder (e : exn) : str :=
  match e with
  | ImportError _ => lit "DOCX text extraction requires python-docx library"
  | Exception msg => lit "Error extracting DOCX text: " ++ msg
  end.

Definition video_placeholder (e : exn) : str :=
  match e with
  | ImportError _ => lit "Video processing requires moviepy library"
  | Exception msg => lit "Error processing video: " ++ msg
  end.

Definition audio_placeholder (e : exn) : str :=
  match e with
  | ImportError _ => lit "Audio processing requires librosa library"
  | Exception msg => lit "Error processing audio: " ++ msg
  end.

(** The ways the [try] block of each extractor can fail with [e]: the import
    raises, or a later call does. *)
Definition pdf_failure (rt : Runtime) (content : bytes) (e : exn) : Prop :=
  import_PyPDF2 rt = Raise e \/
  (exists u, import_PyPDF2 rt = Return u /\
             PdfReader_pages rt content = Raise e) \/
  (exists u before after,
     import_PyPDF2 rt = Return u /\
     PdfReader_pages rt content = Return (map Return before ++ Raise e :: after)).

Definition docx_failure (rt : Runtime) (content : bytes) (e : exn) : Prop :=
  import_docx rt = Raise e \/
  (exists u, import_docx rt = Return u /\
             Document_paragraphs rt content = Raise e).

Definition video_failure (rt : Runtime) (path : str) (file : option bytes)
    (e : exn) : Prop :=
  import_moviepy rt = Raise e \/
  (exists u, import_moviepy rt = Return u /\
             VideoFileClip_duration rt path file = Raise e) \/
  (exists u d, import_moviepy rt = Return u /\
               VideoFileClip_duration rt path file = Return d /\
               clip_close rt = Raise e).

Definition audio_failure (rt : Runtime) (path : str) (file : option bytes)
    (e : exn) : Prop :=
  import_librosa rt = Raise e \/
  (exists u, import_librosa rt = Return u /\
             librosa_load rt path file = Raise e).

(** The extractor of an ingestion of kind [k] fails with [e]: for a document
    the PDF or the DOCX extractor, by the extension; for a video or an audio
    file the extractor run on the blob just written. *)
Definition extraction_failure (rt : Runtime) (k : Kind) (st : State)
    (content : bytes) (fname : str) (e : exn) : Prop :=
  match k with
  | document =>
      (lower (path_suffix rt fname) = lit ".pdf" /\ pdf_failure rt content e) \/
      (list_in (lower (path_suffix rt fname)) [lit ".docx"; lit ".doc"] = true /\
       docx_failure rt content e)
  | video =>
      video_failure rt (blob_path rt st video content fname) (Some content) e
  | audio =>
      audio_failure rt (blob_path rt st audio content fname) (Some content) e
  end.

(** The placeholder that failure is turned into. *)
Definition placeholder (rt : Runtime) (k : Kind) (fname : str) (e : exn) : str :=
  match k with
  | document =>
      if str_eqb (lower (path_suffix rt fname)) (lit ".pdf")
      then pdf_placeholder e
      else docx_placeholder e
  | video => video_placeholder e
  | audio => audio_placeholder e
  end.

(** What the extractor of an ingestion of kind [k] hands to the record: the
    text of a document, the transcription of a video or an audio file. *)
Definition extracted_text (rt : Runtime) (k : Kind) (st : State)
    (content : bytes) (fname : str) : Exc str :=
  match k with
  | document => document_text rt (lower (path_suffix rt fname)) content
  | video =>
      i <- _extract_video_info rt
             (write_file st (blob_path rt st video content fname) content)
             (blob_path rt st video content fname) ;;
      Return (vi_transcription i)
  | audio =>
      i <- _extract_audio_info rt
             (write_file st (blob_path rt st audio content fname) content)
             (blob_path rt st audio content fname) ;;
      Return (ai_transcription i)
  end.

(** The part of that text a search reads: the first 1000 characters of a
    document, all of a transcription. *)
Definition indexed_text (k : Kind) (text : str) : str :=
  match k with
  | document => slice text 0 1000
  | video | audio => text
  end.

(** The extensions each upload route lets through. *)
Definition allowed_extensions (k : Kind) : list str :=
  match k with
  | document => [lit ".pdf"; lit ".txt"; lit ".docx"; lit ".doc"]
  | video => [lit ".mp4"; lit ".avi"; lit ".mov"; lit ".mkv"]
  | audio => [lit ".mp3"; lit ".wav"; lit ".m4a"; lit ".aac"; lit ".flac"]
  end.

(** The upload route of a kind. *)
Definition upload_route (rt : Runtime) (k : Kind)
    : State -> option str -> bytes -> list EngineCall * Exc (State * HTTP Response) :=
  match k with
  | document => upload_document rt
  | video => upload_video rt
  | audio => upload_audio rt
  end.

(** A word as [split] produces them: not empty, and free of whitespace. *)
Definition is_word (w : str) : bool :=
  truthy w && forallb (fun c => negb (isspace c)) w.

(** A name that can stand in a comma-separated filter: a word without a
    comma. *)
Definition is_filter_name (n : str) : bool :=
  is_word n && forallb (fun c => negb (Ascii.eqb c ","%char)) n.

(** What the loop of [_chunk_text] maintains about words, after reading the
    words [ws]: the closed chunks split back into words which, followed by
    the words of the open chunk, are [ws]; and no closed chunk is blank. *)
Definition words_inv (st : ChunkLoop.t) (ws : list str) : Prop :=
  flat_map split (ChunkLoop.chunks st) ++ ChunkLoop.current_chunk st = ws /\
  Forall (fun w => is_word w = true) (ChunkLoop.current_chunk st) /\
  Forall (fun c => split c <> []) (ChunkLoop.chunks st).

(** The hexadecimal digits of a digest. *)
Definition hex_digits : str := lit "0123456789abcdef".

(** The states an engine created on the empty directory [storage_dir] goes
    through, one ingestion after the other. *)
Inductive reachable (rt : Runtime) (storage_dir : str) : State -> Prop :=
| reach_start : reachable rt storage_dir (__init__ storage_dir [] None)
| reach_process (k : Kind) (st : State) (c : bytes) (f : str)
    (st' : State) (r : Response) :
    reachable rt storage_dir st ->
    process rt k st c f = Return (st', r) ->
    reachable rt storage_dir st'.

(** A record agrees with its key and with the disk: it carries its key as
    [file_hash], its kind is one of the three, its [file_path] is the blob
    path of that kind, hash and extension, and the blob found there has the
    key for digest. *)
Definition record_ok (st : State) (item : str * Metadata) : Prop :=
  file_hash (snd item) = fst item /\
  (exists k, file_type (snd item) = kind_name k /\
             file_path (snd item)
             = path_join (kind_dir st k) (fst item ++ file_extension (snd item))) /\
  (exists b, dict_get (files st) (file_path (snd item)) = Some b /\
             _get_file_hash b = fst item).

(* ================================================================== *)
(** * Properties *)

(** ** Test vectors *)

Example md5_empty :
  MD5.hexdigest [] = lit "d41d8cd98f00b204e9800998ecf8427e".
Proof. vm_compute. reflexivity. Qed.

Example md5_abc :
  MD5.hexdigest (blit "abc") = lit "900150983cd24fb0d6963f7d28e17f72".
Proof. vm_compute. reflexivity. Qed.

Example md5_two_blocks :
  MD5.hexdigest (blit "aaaaaaaaaaaaaaaaaaaaaaaaaaaaaaaaaaaaaaaaaaaaaaaaaaaaaaaa")
  = lit "3b0c8ac703f828b04c6c197006d17218".
Proof. vm_compute. reflexivity. Qed.

Example md5_test_document :
  MD5.hexdigest (blit "This is a test document about machine learning and AI.")
  = lit "fdccfb2882f315fda0731e238b63b391".
Proof. vm_compute. reflexivity. Qed.

Example chunk_ex1 :
  _chunk_text (lit "ML and AI   basics") 6 = [lit "ML and"; lit "AI"; lit "basics"].
Proof. vm_compute. reflexivity. Qed.

(** ** Worked ingestions *)

(** With no PDF library installed a PDF is still indexed, under the
    placeholder text. *)
Example pdf_without_library :
  map (fun item => (fst item, text_content (snd item)))
      (metadata (after_document bare_runtime fresh (blit "%PDF-1.4") (lit "Paper.PDF")))
  = [(_get_file_hash (blit "%PDF-1.4"),
      Some (lit "PDF text extraction requires PyPDF2 library"))] /\
  map Result.filename
      (search (after_document bare_runtime fresh (blit "%PDF-1.4") (lit "Paper.PDF"))
              (lit "pypdf2") (Some [lit "document"]))
  = [lit "Paper.PDF"].
Proof. split; vm_compute; reflexivity. Qed.

(** A reader that raises leaves its message in the indexed text. *)
Example pdf_with_broken_reader :
  map (fun item => text_content (snd item))
      (metadata (after_document broken_pdf_runtime fresh (blit "junk") (lit "x.pdf")))
  = [Some (lit "Error extracting PDF text: EOF marker not found")].
Proof. vm_compute. reflexivity. Qed.

(** The document ["ML and AI basics"] ingested as [ai.txt]: one record of
    kind document holding the phrase in one chunk; [search("AI")] returns it
    with a snippet that contains ["AI"]; ingesting it again leaves one
    record. *)
Example scenario_ai_txt :
  let st := after_document bare_runtime fresh (blit "ML and AI basics") (lit "ai.txt") in
  map (fun item => (file_type (snd item), text_content (snd item), chunks (snd item)))
      (metadata st)
  = [(lit "document", Some (lit "ML and AI basics"), Some [lit "ML and AI basics"])] /\
  map (fun r => (Result.filename r, Result.relevance_snippet r))
      (search st (lit "AI") None)
  = [(lit "ai.txt", lit "ML and AI basics")] /\
  contains (lit "ML and AI basics") (lit "AI") = true /\
  List.length
    (metadata (after_document bare_runtime st (blit "ML and AI basics") (lit "ai.txt")))
  = 1%nat.
Proof. repeat split; vm_compute; reflexivity. Qed.

(** ** Strings *)

Lemma str_eqb_refl (a : str) : str_eqb a a = true.
Proof. unfold str_eqb. destruct (list_eq_dec ascii_dec a a); congruence. Qed.

Lemma str_eqb_eq (a b : str) : str_eqb a b = true <-> a = b.
Proof.
  unfold str_eqb. destruct (list_eq_dec ascii_dec a b); split; congruence.
Qed.

Lemma str_eqb_neq (a b : str) : str_eqb a b = false <-> a <> b.
Proof.
  unfold str_eqb. destruct (list_eq_dec ascii_dec a b); split; congruence.
Qed.

Lemma list_in_In (x : str) (l : list str) : list_in x l = true <-> In x l.
Proof.
  unfold list_in. rewrite existsb_exists. split.
  - intros [y [Hy E]]. apply str_eqb_eq in E. now subst.
  - intros H. exists x. split; [assumption | apply str_eqb_refl].
Qed.

Lemma list_in_app (x : str) (l1 l2 : list str) :
  list_in x (l1 ++ l2) = list_in x l1 || list_in x l2.
Proof. unfold list_in. apply existsb_app. Qed.

Lemma startswith_nil (s : str) : startswith s [] = true.
Proof. destruct s; reflexivity. Qed.

Lemma startswith_refl (s : str) : startswith s s = true.
Proof.
  induction s as [|c s IH]; simpl; [reflexivity|].
  now rewrite Ascii.eqb_refl, IH.
Qed.


Lemma contains_refl (s : str) : contains s s = true.
Proof. destruct s; simpl; [reflexivity|]. now rewrite Ascii.eqb_refl, startswith_refl. Qed.


(** [find] answers [-1] exactly when [in] answers [False]. *)
Lemma find_from_absent (s sub : str) (i : Z) :
  contains s sub = false -> find_from i s sub = -1.
Proof.
  revert i. induction s as [|c s IH]; intros i H.
  - simpl in *. rewrite orb_false_r in H. now rewrite H.
  - cbn [contains] in H. apply orb_false_iff in H as [H1 H2].
    cbn [find_from]. rewrite H1. now apply IH.
Qed.

Lemma find_from_present (s sub : str) (i : Z) :
  contains s sub = true -> i <= find_from i s sub.
Proof.
  revert i. induction s as [|c s IH]; intros i H.
  - simpl in *. rewrite orb_false_r in H. rewrite H. lia.
  - cbn [contains] in H. cbn [find_from].
    destruct (startswith (c :: s) sub) eqn:E; [lia|].
    simpl in H. specialize (IH (i + 1) H). lia.
Qed.

Lemma adjust_index_nonneg (n i : Z) :
  0 <= n -> 0 <= i -> adjust_index n i = Z.min n i.
Proof.
  intros Hn Hi. unfold adjust_index.
  destruct (i <? 0) eqn:E; [apply Z.ltb_lt in E; lia | lia].
Qed.

(** [s[0:k]] is the first [k] characters of [s], all of [s] when it is
    shorter. *)
Lemma slice_prefix (s : str) (k : Z) :
  0 <= k -> slice s 0 k = firstn (Z.to_nat k) s.
Proof.
  intros Hk. unfold slice, len.
  rewrite !adjust_index_nonneg by lia.
  rewrite (Z.min_r _ 0) by lia. rewrite Z.sub_0_r. simpl skipn.
  destruct (Z.le_gt_cases k (Z.of_nat (List.length s))) as [H | H].
  - now rewrite Z.min_r by lia.
  - rewrite Z.min_l by lia. rewrite Nat2Z.id.
    rewrite firstn_all. symmetry. apply firstn_all2. lia.
Qed.


(** ** Dictionaries *)

Section DictFacts.

Context {V : Type}.
Implicit Types (d : dict V) (k : str) (v : V).

Lemma dict_get_set_same d k v : dict_get (dict_set d k v) k = Some v.
Proof.
  induction d as [|[k' v'] d IH]; simpl.
  - now rewrite str_eqb_refl.
  - destruct (str_eqb k' k) eqn:E; simpl; now rewrite E.
Qed.

Lemma In_dict_set d k v : In (k, v) (dict_set d k v).
Proof.
  induction d as [|[k' v'] d IH]; simpl; [now left|].
  destruct (str_eqb k' k) eqn:E.
  - apply str_eqb_eq in E. subst. now left.
  - now right.
Qed.

Lemma keys_dict_set d k v :
  keys (dict_set d k v) = if list_in k (keys d) then keys d else keys d ++ [k].
Proof.
  induction d as [|[k' v'] d IH]; [reflexivity|].
  cbn [dict_set]. destruct (str_eqb k' k) eqn:E.
  - apply str_eqb_eq in E. subst. unfold keys, list_in. simpl.
    now rewrite str_eqb_refl.
  - unfold keys, list_in in *. simpl. rewrite IH.
    assert (E' : str_eqb k k' = false).
    { apply str_eqb_neq. apply str_eqb_neq in E. congruence. }
    rewrite E'. simpl. now destruct (existsb (str_eqb k) (map fst d)).
Qed.

Lemma list_in_keys_set d k v : list_in k (keys (dict_set d k v)) = true.
Proof.
  rewrite keys_dict_set. destruct (list_in k (keys d)) eqn:E; [assumption|].
  rewrite list_in_app. unfold list_in at 2. simpl.
  now rewrite str_eqb_refl, orb_true_r.
Qed.

Lemma distinct_snoc (l : list str) k :
  distinct l = true -> list_in k l = false -> distinct (l ++ [k]) = true.
Proof.
  induction l as [|x l IH]; intros Hd Hk; [reflexivity|].
  simpl in *. apply andb_true_iff in Hd as [Hx Hd].
  unfold list_in in Hk. simpl in Hk. apply orb_false_iff in Hk as [Hkx Hk].
  rewrite list_in_app. apply negb_true_iff in Hx. rewrite Hx.
  unfold list_in at 1. simpl.
  assert (E : str_eqb x k = false).
  { apply str_eqb_neq. apply str_eqb_neq in Hkx. congruence. }
  rewrite E. simpl. now apply IH.
Qed.

(** Assignment keeps the keys of a dictionary pairwise different. *)
Lemma dict_wf_set d k v : dict_wf d -> dict_wf (dict_set d k v).
Proof.
  unfold dict_wf. intros H. rewrite keys_dict_set.
  destruct (list_in k (keys d)) eqn:E; [assumption|].
  now apply distinct_snoc.
Qed.

Lemma count_key_absent d k : list_in k (keys d) = false -> count_key d k = 0%nat.
Proof.
  unfold count_key, keys, list_in.
  induction d as [|[k' v'] d IH]; intros H; [reflexivity|].
  simpl in *. apply orb_false_iff in H as [H1 H2].
  assert (E : str_eqb k' k = false).
  { apply str_eqb_neq. apply str_eqb_neq in H1. congruence. }
  rewrite E. now apply IH.
Qed.

Lemma count_key_present d k :
  dict_wf d -> list_in k (keys d) = true -> count_key d k = 1%nat.
Proof.
  unfold dict_wf. induction d as [|[k' v'] d IH]; intros Hd Hk.
  - discriminate.
  - unfold keys in *. simpl in Hd. apply andb_true_iff in Hd as [Hx Hd].
    apply negb_true_iff in Hx.
    unfold count_key. simpl.
    destruct (str_eqb k' k) eqn:E.
    + apply str_eqb_eq in E. subst. simpl.
      f_equal. now apply count_key_absent.
    + unfold list_in in Hk. simpl in Hk.
      assert (E' : str_eqb k k' = false).
      { apply str_eqb_neq. apply str_eqb_neq in E. congruence. }
      rewrite E' in Hk. simpl in Hk. now apply IH.
Qed.

(** After [d[k] = v] a dictionary has exactly one item with key [k]. *)
Lemma count_key_set d k v :
  dict_wf d -> count_key (dict_set d k v) k = 1%nat.
Proof.
  intros H. apply count_key_present.
  - now apply dict_wf_set.
  - apply list_in_keys_set.
Qed.

Lemma length_dict_set_present d k v :
  list_in k (keys d) = true -> List.length (dict_set d k v) = List.length d.
Proof.
  intros H.
  rewrite <- (length_map fst (dict_set d k v)), <- (length_map fst d).
  fold (keys (dict_set d k v)). fold (keys d).
  now rewrite keys_dict_set, H.
Qed.

Lemma In_keys d k v : In (k, v) d -> list_in k (keys d) = true.
Proof.
  intros H. apply list_in_In. unfold keys.
  change k with (fst (k, v)). now apply in_map.
Qed.

(** In a dictionary an item is found under its key. *)
Lemma dict_get_In d k v : dict_wf d -> In (k, v) d -> dict_get d k = Some v.
Proof.
  unfold dict_wf. induction d as [|[k' v'] d IH]; intros Hd Hin; [contradiction|].
  unfold keys in *. simpl in Hd. apply andb_true_iff in Hd as [Hx Hd].
  apply negb_true_iff in Hx. simpl.
  destruct Hin as [Heq | Hin].
  - inversion Heq; subst. now rewrite str_eqb_refl.
  - destruct (str_eqb k' k) eqn:E.
    + apply str_eqb_eq in E. subst.
      apply In_keys in Hin. unfold keys in Hin. congruence.
    + now apply IH.
Qed.

End DictFacts.

(** ** Chunking *)

Lemma join_snoc (sep : str) (l : list str) (x : str) :
  l <> [] -> join sep (l ++ [x]) = join sep l ++ sep ++ x.
Proof.
  induction l as [|a l IH]; intros H; [congruence|].
  destruct l as [|b l]; [reflexivity|].
  change (join sep ((a :: b :: l) ++ [x]))
    with (a ++ sep ++ join sep ((b :: l) ++ [x])).
  rewrite IH by discriminate.
  change (join sep (a :: b :: l)) with (a ++ sep ++ join sep (b :: l)).
  now rewrite <- !app_assoc.
Qed.

Lemma join_snoc_app (sep : str) (l : list str) (a b : str) :
  join sep (l ++ [a ++ b]) = join sep (l ++ [a]) ++ b.
Proof.
  induction l as [|x l IH]; [reflexivity|].
  destruct l as [|y l].
  - simpl. now rewrite <- !app_assoc.
  - change (join sep ((x :: y :: l) ++ [a ++ b]))
      with (x ++ sep ++ join sep ((y :: l) ++ [a ++ b])).
    rewrite IH.
    change (join sep ((x :: y :: l) ++ [a]))
      with (x ++ sep ++ join sep ((y :: l) ++ [a])).
    now rewrite <- !app_assoc.
Qed.

Lemma chunk_inv_init : chunk_inv ChunkLoop.init [].
Proof. repeat split; reflexivity. Qed.

Lemma chunk_inv_step (N : Z) (st : ChunkLoop.t) (ws : list str) (w : str) :
  chunk_inv st ws -> chunk_inv (ChunkLoop.step N st w) (ws ++ [w]).
Proof.
  intros (Hj & Hcur & Hws).
  assert (Hsnoc : forall (l : list str) x, l ++ [x] <> [])
    by (intros l x E; destruct (app_cons_not_nil _ _ _ (eq_sym E))).
  destruct st as [chs cur size].
  unfold chunk_inv, ChunkLoop.step, ChunkLoop.finish in *.
  cbn [ChunkLoop.chunks ChunkLoop.current_chunk ChunkLoop.current_size] in *.
  destruct cur as [|c cur].
  - destruct (Hcur eq_refl) as [-> ->].
    rewrite andb_false_r. cbn. repeat split; discriminate.
  - assert (Hne : ws <> []) by (intros E; specialize (Hws E); discriminate).
    cbn [truthy] in *. rewrite andb_true_r.
    destruct (size + len w >? N);
      cbn [ChunkLoop.chunks ChunkLoop.current_chunk truthy].
    + split; [|split].
      * rewrite join_snoc by apply Hsnoc.
        rewrite Hj. now rewrite join_snoc.
      * discriminate.
      * intros H. now apply Hsnoc in H.
    + assert (Ht : truthy ((c :: cur) ++ [w]) = true) by reflexivity.
      rewrite Ht. split; [|split].
      * rewrite (join_snoc _ (c :: cur)) by discriminate.
        rewrite join_snoc_app, Hj. now rewrite join_snoc.
      * intros H. now apply Hsnoc in H.
      * intros H. now apply Hsnoc in H.
Qed.

Lemma chunk_inv_fold (N : Z) (ws' : list str) :
  forall st ws, chunk_inv st ws ->
  chunk_inv (fold_left (ChunkLoop.step N) ws' st) (ws ++ ws').
Proof.
  induction ws' as [|w ws' IH]; intros st ws H.
  - now rewrite app_nil_r.
  - simpl. replace (ws ++ w :: ws') with ((ws ++ [w]) ++ ws')
      by now rewrite <- app_assoc.
    apply IH. now apply chunk_inv_step.
Qed.

Lemma len_app {A : Type} (a b : list A) : len (a ++ b) = len a + len b.
Proof. unfold len. rewrite length_app. lia. Qed.

Lemma size_inv_init (N : Z) (words : list str) : size_inv N words ChunkLoop.init.
Proof. split; [intros c [] | reflexivity]. Qed.

Lemma size_inv_step (N : Z) (words : list str) (st : ChunkLoop.t) (w : str) :
  In w words -> size_inv N words st -> size_inv N words (ChunkLoop.step N st w).
Proof.
  intros Hw [Hchunks Hcur]. destruct st as [chs cur size].
  unfold size_inv, ChunkLoop.step in *.
  cbn [ChunkLoop.chunks ChunkLoop.current_chunk ChunkLoop.current_size] in *.
  destruct cur as [|w0 rest].
  - rewrite andb_false_r.
    cbn [ChunkLoop.chunks ChunkLoop.current_chunk ChunkLoop.current_size app].
    split; [assumption|]. cbn [join]. subst size. split; [lia | now left].
  - destruct Hcur as [Hsize Hopen]. cbn [truthy]. rewrite andb_true_r.
    destruct (size + len w >? N) eqn:E;
      cbn [ChunkLoop.chunks ChunkLoop.current_chunk ChunkLoop.current_size].
    + split.
      * intros c Hc. apply in_app_or in Hc as [Hc | [<- | []]]; [now apply Hchunks|].
        destruct Hopen as [[-> Hin] | Hle]; [now right | now left].
      * cbn [join]. split; [lia | now left].
    + split; [assumption|].
      assert (Hj : len (join (lit " ") ((w0 :: rest) ++ [w]))
                   = len (join (lit " ") (w0 :: rest)) + 1 + len w).
      { rewrite join_snoc by discriminate. rewrite !len_app.
        change (len (lit " ")) with 1. lia. }
      cbn [app] in *. rewrite Hj. rewrite Z.gtb_ltb in E. apply Z.ltb_ge in E.
      split; [lia | right; lia].
Qed.

Lemma size_inv_fold (N : Z) (words ws : list str) :
  forall st, (forall w, In w ws -> In w words) -> size_inv N words st ->
  size_inv N words (fold_left (ChunkLoop.step N) ws st).
Proof.
  induction ws as [|w ws IH]; intros st Hws H; [exact H|].
  simpl. apply IH.
  - intros w' Hw'. apply Hws. now right.
  - apply size_inv_step; [apply Hws; now left | exact H].
Qed.

(** ** Search *)

Lemma search_fold (query : str) (ft : option (list str)) (items : dict Metadata) :
  forall acc,
  fold_left (search_step query ft) items acc
  = acc ++ map (result_of query) (filter (selected query ft) items).
Proof.
  induction items as [|item items IH]; intros acc; simpl.
  - now rewrite app_nil_r.
  - rewrite IH. unfold search_step, selected.
    destruct (excluded ft (snd item)); simpl; [reflexivity|].
    destruct (matches query (snd item)); simpl; [|reflexivity].
    now rewrite <- app_assoc.
Qed.

(** [search] is a filter of the index followed by a projection. *)
Lemma search_filter (st : State) (query : str) (ft : option (list str)) :
  search st query ft
  = map (result_of query) (filter (selected query ft) (metadata st)).
Proof. unfold search. now rewrite search_fold. Qed.


Lemma matches_own_text (m : Metadata) : matches (content_to_search m) m = true.
Proof. unfold matches. apply contains_refl. Qed.

Lemma result_of_hash (query : str) (item : str * Metadata) :
  Result.file_hash (result_of query item) = fst item.
Proof. now destruct item. Qed.

Lemma result_of_metadata (query : str) (item : str * Metadata) :
  Result.metadata (result_of query item) = snd item.
Proof. now destruct item. Qed.

(** ** Ingestion *)

Arguments _get_file_hash : simpl never.

Lemma dict_get_set_other {V : Type} (d : dict V) (k k' : str) (v : V) :
  k <> k' -> dict_get (dict_set d k' v) k = dict_get d k.
Proof.
  intros Hne. induction d as [|[k0 v0] d IH]; simpl.
  - assert (E : str_eqb k' k = false) by (apply str_eqb_neq; congruence).
    now rewrite E.
  - destruct (str_eqb k0 k') eqn:E; simpl.
    + apply str_eqb_eq in E. subst k0.
      assert (E : str_eqb k' k = false) by (apply str_eqb_neq; congruence).
      now rewrite E.
    + now rewrite IH.
Qed.

Lemma try_except_returns {A : Type} (body : Exc A) (handler : exn -> Exc A) :
  (forall e, exists a, handler e = Return a) ->
  exists a, try_except body handler = Return a.
Proof.
  intros H. destruct body as [a | e]; simpl; [now exists a | apply H].
Qed.

Section IngestionFacts.

Variable rt : Runtime.

Lemma _extract_pdf_text_returns (c : bytes) :
  exists t, _extract_pdf_text rt c = Return t.
Proof. apply try_except_returns. intros [msg | msg]; eexists; reflexivity. Qed.

Lemma _extract_docx_text_returns (c : bytes) :
  exists t, _extract_docx_text rt c = Return t.
Proof. apply try_except_returns. intros [msg | msg]; eexists; reflexivity. Qed.

Lemma _extract_video_info_returns (st : State) (path : str) :
  exists i, _extract_video_info rt st path = Return i.
Proof. apply try_except_returns. intros [msg | msg]; eexists; reflexivity. Qed.

Lemma _extract_audio_info_returns (st : State) (path : str) :
  exists i, _extract_audio_info rt st path = Return i.
Proof. apply try_except_returns. intros [msg | msg]; eexists; reflexivity. Qed.

Lemma document_text_returns (ext : str) (c : bytes) :
  exists t, document_text rt ext c = Return t.
Proof.
  unfold document_text.
  destruct (str_eqb ext (lit ".txt")); [eexists; reflexivity|].
  destruct (str_eqb ext (lit ".pdf")); [apply _extract_pdf_text_returns|].
  destruct (list_in ext [lit ".docx"; lit ".doc"]);
    [apply _extract_docx_text_returns | eexists; reflexivity].
Qed.

(** The record and the state an ingested document leaves, from its
    extracted text. *)
Lemma process_document_text (st : State) (c : bytes) (f : str) (text : str) :
  document_text rt (lower (path_suffix rt f)) c = Return text ->
  exists resp,
    process_document rt st c f
    = Return (committed st (blob_path rt st document c f) c (_get_file_hash c)
                (mkMetadata f (lit "document") (lower (path_suffix rt f))
                   (_get_file_hash c) (blob_path rt st document c f)
                   (Some (slice text 0 1000)) (Some (len text))
                   (Some (_chunk_text text default_chunk_size))
                   None None None None),
              resp) /\
    r_file_hash resp = _get_file_hash c /\
    r_status resp = lit "processed".
Proof.
  intros H. unfold process_document. rewrite H. cbn [bind].
  eexists. split; [reflexivity | split; reflexivity].
Qed.

(** Every ingestion returns, having written the blob, the record and the
    snapshot. *)
Lemma process_returns (k : Kind) (st : State) (c : bytes) (f : str) :
  exists m resp,
    process rt k st c f
    = Return (committed st (blob_path rt st k c f) c (_get_file_hash c) m, resp) /\
    file_type m = kind_name k /\
    r_file_hash resp = _get_file_hash c /\
    r_status resp = lit "processed".
Proof.
  destruct k; cbn [process].
  - destruct (document_text_returns (lower (path_suffix rt f)) c) as [text Ht].
    destruct (process_document_text st c f text Ht) as (resp & H1 & H2 & H3).
    eexists; exists resp. rewrite H1. repeat split; assumption.
  - unfold process_video.
    destruct (_extract_video_info_returns
                (write_file st (blob_path rt st video c f) c)
                (blob_path rt st video c f)) as [i Hi].
    unfold blob_path in Hi. cbn [kind_dir] in Hi. rewrite Hi. cbn [bind].
    eexists; eexists. repeat split.
  - unfold process_audio.
    destruct (_extract_audio_info_returns
                (write_file st (blob_path rt st audio c f) c)
                (blob_path rt st audio c f)) as [i Hi].
    unfold blob_path in Hi. cbn [kind_dir] in Hi. rewrite Hi. cbn [bind].
    eexists; eexists. repeat split.
Qed.

End IngestionFacts.

Lemma committed_metadata st path c h m :
  metadata (committed st path c h m) = dict_set (metadata st) h m.
Proof. reflexivity. Qed.

Lemma committed_files st path c h m :
  files (committed st path c h m) = dict_set (files st) path c.
Proof. reflexivity. Qed.

Lemma committed_snapshot st path c h m :
  metadata_json (committed st path c h m) = Some (metadata (committed st path c h m)).
Proof. reflexivity. Qed.

Lemma committed_dirs st path c h m (k : Kind) :
  kind_dir (committed st path c h m) k = kind_dir st k.
Proof. now destruct k. Qed.

(** Two kinds never share a blob path under one storage directory. *)
Lemma blob_path_kind_neq rt st storage_dir c1 f1 c2 f2 (k1 k2 : Kind) :
  rooted_at storage_dir st -> k1 <> k2 ->
  blob_path rt st k1 c1 f1 <> blob_path rt st k2 c2 f2.
Proof.
  intros (Hd & Hv & Ha) Hk E. unfold blob_path, path_join in E.
  destruct k1, k2; try congruence; cbn [kind_dir] in E;
    rewrite ?Hd, ?Hv, ?Ha in E; unfold path_join in E;
    rewrite <- !app_assoc in E; apply app_inv_head in E;
    cbn in E; discriminate.
Qed.

(** Two ingestions in a row both return; it is enough to reason on the
    states they commit. *)
Lemma ingest_twice_intro (rt : Runtime) (st : State) (b : bytes)
    (k1 k2 : Kind) (f1 f2 : str)
    (P : State -> Response -> State -> Response -> Prop) :
  (forall m1 r1 m2 r2,
     file_type m1 = kind_name k1 -> r_file_hash r1 = _get_file_hash b ->
     file_type m2 = kind_name k2 -> r_file_hash r2 = _get_file_hash b ->
     P (committed st (blob_path rt st k1 b f1) b (_get_file_hash b) m1) r1
       (committed (committed st (blob_path rt st k1 b f1) b (_get_file_hash b) m1)
          (blob_path rt st k2 b f2) b (_get_file_hash b) m2) r2) ->
  ingest_twice rt st b k1 f1 k2 f2 P.
Proof.
  intros H. unfold ingest_twice.
  destruct (process_returns rt k1 st b f1) as (m1 & r1 & H1 & T1 & Hh1 & _).
  set (st1 := committed st (blob_path rt st k1 b f1) b (_get_file_hash b) m1) in *.
  destruct (process_returns rt k2 st1 b f2) as (m2 & r2 & H2 & T2 & Hh2 & _).
  assert (Hp : blob_path rt st1 k2 b f2 = blob_path rt st k2 b f2).
  { unfold blob_path, st1. now rewrite committed_dirs. }
  rewrite Hp in H2.
  exists st1, r1. eexists; exists r2.
  split; [exact H1|]. split; [exact H2|]. now apply H.
Qed.

(* ================================================================== *)
(** * The claims *)

(** ** C1: identical bytes under two kinds *)

(** C1, as stated, fails: on a fresh engine, [b"abc"] ingested as a document
    and then as a video gives two distinct (content, kind) pairs and two
    blobs on disk, but an index of one record, and that record is not the
    document's. *)
Lemma C1_cross_kind_counterexample :
  ingest_twice bare_runtime fresh (blit "abc")
    document (lit "a.txt") video (lit "a.mp4")
    (fun _ _ st2 _ =>
       List.length (files st2) = 2%nat /\
       List.length (metadata st2) = 1%nat /\
       forall m, In m (map snd (metadata st2)) -> file_type m <> lit "document").
Proof.
  apply ingest_twice_intro. intros m1 r1 m2 r2 T1 _ T2 _.
  split; [|split].
  - vm_compute. reflexivity.
  - rewrite !committed_metadata.
    rewrite length_dict_set_present by apply list_in_keys_set. reflexivity.
  - intros m Hm. rewrite !committed_metadata in Hm. cbn in Hm.
    rewrite str_eqb_refl in Hm. cbn in Hm.
    destruct Hm as [<- | []]. rewrite T2. discriminate.
Qed.

(** C1, amended.  The index is keyed by the content hash alone, and the hash
    is computed from the bytes only: identical bytes ingested under two
    different kinds get the same hash, are stored as two blobs (one in each
    kind's directory, at different paths), and leave exactly one record
    under that hash, that of the later ingestion. *)
Theorem C1_index_keyed_by_content_hash
    (rt : Runtime) (st : State) (storage_dir : str) (b : bytes)
    (k1 k2 : Kind) (f1 f2 : str) :
  dict_wf (metadata st) ->
  rooted_at storage_dir st ->
  k1 <> k2 ->
  ingest_twice rt st b k1 f1 k2 f2
    (fun st1 r1 st2 r2 =>
       r_file_hash r1 = _get_file_hash b /\
       r_file_hash r2 = _get_file_hash b /\
       blob_path rt st k1 b f1 <> blob_path rt st k2 b f2 /\
       dict_get (files st2) (blob_path rt st k1 b f1) = Some b /\
       dict_get (files st2) (blob_path rt st k2 b f2) = Some b /\
       count_key (metadata st2) (_get_file_hash b) = 1%nat /\
       exists m, dict_get (metadata st2) (_get_file_hash b) = Some m /\
                 file_type m = kind_name k2).
Proof.
  intros Hwf Hroot Hk. apply ingest_twice_intro.
  intros m1 r1 m2 r2 T1 Hh1 T2 Hh2.
  assert (Hne := blob_path_kind_neq rt st storage_dir b f1 b f2 k1 k2 Hroot Hk).
  repeat split; try assumption.
  - rewrite !committed_files.
    rewrite dict_get_set_other by assumption. apply dict_get_set_same.
  - rewrite committed_files. apply dict_get_set_same.
  - rewrite committed_metadata. apply count_key_set.
    rewrite committed_metadata. now apply dict_wf_set.
  - exists m2. split; [|assumption].
    rewrite committed_metadata. apply dict_get_set_same.
Qed.

Lemma C1_index_keyed_by_content_hash_witness :
  dict_wf (metadata fresh) /\
  rooted_at (lit "data") fresh /\
  document <> video /\
  ingest_twice bare_runtime fresh (blit "abc")
    document (lit "a.txt") video (lit "a.mp4")
    (fun st1 r1 st2 r2 =>
       r_file_hash r1 = _get_file_hash (blit "abc") /\
       r_file_hash r2 = _get_file_hash (blit "abc") /\
       blob_path bare_runtime fresh document (blit "abc") (lit "a.txt")
       <> blob_path bare_runtime fresh video (blit "abc") (lit "a.mp4") /\
       dict_get (files st2)
         (blob_path bare_runtime fresh document (blit "abc") (lit "a.txt"))
       = Some (blit "abc") /\
       dict_get (files st2)
         (blob_path bare_runtime fresh video (blit "abc") (lit "a.mp4"))
       = Some (blit "abc") /\
       count_key (metadata st2) (_get_file_hash (blit "abc")) = 1%nat /\
       exists m, dict_get (metadata st2) (_get_file_hash (blit "abc")) = Some m /\
                 file_type m = kind_name video).
Proof.
  split; [reflexivity|].
  split; [repeat split|].
  split; [discriminate|].
  apply (C1_index_keyed_by_content_hash bare_runtime fresh (lit "data")
           (blit "abc") document video (lit "a.txt") (lit "a.mp4")).
  - reflexivity.
  - repeat split.
  - discriminate.
Defined.

(** ** C2: ingesting twice *)

(** C2.  Ingesting the same bytes, file name and kind twice in a row gives
    the same hash both times, leaves exactly one record under that hash, and
    the index is as long after the second ingestion as after the first. *)
Theorem C2_reingestion_is_upsert
    (rt : Runtime) (st : State) (b : bytes) (f : str) (k : Kind) :
  dict_wf (metadata st) ->
  ingest_twice rt st b k f k f
    (fun st1 r1 st2 r2 =>
       r_file_hash r1 = r_file_hash r2 /\
       count_key (metadata st2) (r_file_hash r2) = 1%nat /\
       List.length (metadata st2) = List.length (metadata st1)).
Proof.
  intros Hwf. apply ingest_twice_intro.
  intros m1 r1 m2 r2 _ Hh1 _ Hh2.
  split; [congruence|]. rewrite Hh2, !committed_metadata. split.
  - apply count_key_set. now apply dict_wf_set.
  - apply length_dict_set_present. apply list_in_keys_set.
Qed.

Lemma C2_reingestion_is_upsert_witness :
  dict_wf (metadata fresh) /\
  ingest_twice bare_runtime fresh (blit "abc")
    document (lit "a.txt") document (lit "a.txt")
    (fun st1 r1 st2 r2 =>
       r_file_hash r1 = r_file_hash r2 /\
       count_key (metadata st2) (r_file_hash r2) = 1%nat /\
       List.length (metadata st2) = List.length (metadata st1)).
Proof.
  split; [reflexivity|].
  apply (C2_reingestion_is_upsert bare_runtime fresh (blit "abc") (lit "a.txt")
           document).
  reflexivity.
Defined.

(** ** C3: what a filtered search returns *)

(** C3, as stated, fails for the empty filter: [search("hello", [])] returns
    the one document of [hello_index], whose kind is not a member of the
    empty set. *)
Lemma C3_empty_filter_counterexample :
  ~ search_returns_designated hello_index (lit "hello") [].
Proof.
  unfold search_returns_designated. intros E. vm_compute in E. discriminate E.
Qed.

(** C3, amended.  For every query [S] and every non-empty kind filter [F],
    [search(S, F)] returns, in index order, exactly the records whose kind is
    a member of [F] and whose searchable text contains [S] whatever the
    case; the searchable text is the text preview of a document and the
    transcription of a video or audio record.  So a result always has a kind
    of [F], and every record of the index with a kind of [F] and a matching
    text is among the results.  An empty filter, like an absent one, filters
    nothing: [search(S, [])] is [search(S)], on every index. *)
Theorem C3_search_filtered
    (st : State) (S : str) (F : list str) :
  search st S (Some []) = search st S None /\
  (F <> [] ->
   search_returns_designated st S F /\
   (forall m, file_type m = lit "document" ->
              content_to_search m = get_or (text_content m) []) /\
   (forall m, file_type m = lit "video" \/ file_type m = lit "audio" ->
              content_to_search m = get_or (transcription m) []) /\
   (forall r, In r (search st S (Some F)) ->
              list_in (Result.file_type r) F = true) /\
   (forall item, In item (metadata st) -> designated S F item = true ->
                 In (result_of S item) (search st S (Some F)))).
Proof.
  split; [reflexivity|].
  intros HF.
  assert (Hsel : forall item, selected S (Some F) item = designated S F item).
  { intros item. unfold selected, designated, excluded, matches.
    destruct F as [|x F]; [congruence|]. cbn [truthy andb].
    now rewrite negb_involutive. }
  assert (Heq : search_returns_designated st S F).
  { unfold search_returns_designated. rewrite search_filter.
    f_equal. apply filter_ext. exact Hsel. }
  split; [exact Heq|]. split; [|split; [|split]].
  - intros m Hm. unfold content_to_search. rewrite Hm. now rewrite str_eqb_refl.
  - intros m Hm. unfold content_to_search.
    destruct Hm as [Hm | Hm]; rewrite Hm; reflexivity.
  - intros r Hr. rewrite Heq in Hr. apply in_map_iff in Hr as [item [<- Hin]].
    apply filter_In in Hin as [_ Hd]. unfold designated in Hd.
    apply andb_true_iff in Hd as [Hd _]. now destruct item.
  - intros item Hin Hd. rewrite Heq. apply in_map. apply filter_In. now split.
Qed.

Lemma C3_search_filtered_witness :
  [lit "document"] <> [] /\
  search hello_index (lit "hello") (Some []) = search hello_index (lit "hello") None /\
  search_returns_designated hello_index (lit "hello") [lit "document"].
Proof.
  split; [discriminate|].
  destruct (C3_search_filtered hello_index (lit "hello") [lit "document"])
    as [Hempty Hfilter].
  split; [exact Hempty|].
  apply Hfilter. discriminate.
Defined.

(** ** C4: the length of a chunk *)

(** C4 fails on the code.  With [N = 3] the text ["aaa b cc"] gives the
    chunk ["b cc"], of two words and length 4; with the default [N = 500], a
    word of 500 letters followed by ["b"] and a word of 499 letters gives a
    second chunk of two words and length 501.  After a flush the loop
    restarts [current_size] at [len(word)], without the [+ 1] that every
    appended word is charged for its separator, so each chunk but the first
    may exceed [N] by one. *)
Theorem C4_chunk_exceeds_bound :
  (exists c, In c (_chunk_text (lit "aaa b cc") 3) /\
             len c = 4 /\ split c = [lit "b"; lit "cc"]) /\
  (exists c, In c (_chunk_text
                     (repeat "a"%char 500 ++ lit " b " ++ repeat "c"%char 499)
                     default_chunk_size) /\
             len c = 501 /\ split c = [lit "b"; repeat "c"%char 499]).
Proof.
  split.
  - exists (lit "b cc"). split; [|split]; [|reflexivity|reflexivity].
    vm_compute. right. left. reflexivity.
  - exists (lit "b " ++ repeat "c"%char 499).
    split; [|split]; [| vm_compute; reflexivity | vm_compute; reflexivity].
    assert (E : _chunk_text
                  (repeat "a"%char 500 ++ lit " b " ++ repeat "c"%char 499)
                  default_chunk_size
                = [repeat "a"%char 500; lit "b " ++ repeat "c"%char 499])
      by (vm_compute; reflexivity).
    rewrite E. right. left. reflexivity.
Qed.

(** The bound the loop does keep: a chunk is a word of the text on its
    own, or is at most [N + 1] characters long. *)
Theorem chunk_within_budget_plus_one (text : str) (N : Z) (c : str) :
  In c (_chunk_text text N) ->
  len c <= N + 1 \/ In c (split text).
Proof.
  unfold _chunk_text. intros Hc.
  pose proof (size_inv_fold N (split text) (split text) ChunkLoop.init
                (fun w H => H) (size_inv_init N (split text))) as [Hchunks Hcur].
  destruct (fold_left (ChunkLoop.step N) (split text) ChunkLoop.init)
    as [chs cur size].
  unfold ChunkLoop.finish in Hc.
  cbn [ChunkLoop.chunks ChunkLoop.current_chunk ChunkLoop.current_size] in *.
  destruct cur as [|w rest]; cbn [truthy] in Hc; [now apply Hchunks|].
  apply in_app_or in Hc as [Hc | [<- | []]]; [now apply Hchunks|].
  destruct Hcur as [_ [[-> Hin] | Hle]]; [now right | now left].
Qed.

Lemma chunk_within_budget_plus_one_witness :
  In (lit "b cc") (_chunk_text (lit "aaa b cc") 3) /\
  (len (lit "b cc") <= 3 + 1 \/ In (lit "b cc") (split (lit "aaa b cc"))).
Proof.
  assert (H : In (lit "b cc") (_chunk_text (lit "aaa b cc") 3))
    by (vm_compute; right; left; reflexivity).
  split; [exact H|].
  apply (chunk_within_budget_plus_one (lit "aaa b cc") 3 (lit "b cc")). exact H.
Defined.

(** ** C5: chunking is a function, and joins back to the words *)

(** C5.  [_chunk_text] reads and writes nothing but its arguments, so equal
    arguments give equal sequences of chunks; the chunks joined by single
    spaces are the words of the text joined by single spaces; and the empty
    text has no chunk. *)
Theorem C5_chunks_rejoin (text : str) (N : Z) :
  (forall text' N', text' = text -> N' = N ->
                    _chunk_text text' N' = _chunk_text text N) /\
  join (lit " ") (_chunk_text text N) = join (lit " ") (split text) /\
  _chunk_text [] N = [].
Proof.
  split; [|split].
  - intros text' N' -> ->. reflexivity.
  - unfold _chunk_text.
    destruct (chunk_inv_fold N (split text) ChunkLoop.init [] chunk_inv_init)
      as [H _].
    exact H.
  - reflexivity.
Qed.

(** ** C6: the empty query *)


(** ** C7: the snippet of an absent query *)

(** C7.  When the query does not occur in the text, whatever the case, the
    snippet at the default context size is the first 100 characters of the
    text (all of it when it is shorter) followed by ["..."]. *)
Theorem C7_snippet_fallback (text query : str) :
  contains (lower text) (lower query) = false ->
  _get_snippet text query default_context_size = slice text 0 100 ++ lit "..." /\
  slice text 0 100 = firstn 100 text.
Proof.
  intros H. split.
  - unfold _get_snippet, find. rewrite (find_from_absent _ _ 0 H). reflexivity.
  - now rewrite slice_prefix by lia.
Qed.

Lemma C7_snippet_fallback_witness :
  contains (lower (lit "Hello World")) (lower (lit "xyz")) = false /\
  _get_snippet (lit "Hello World") (lit "xyz") default_context_size
  = lit "Hello World...".
Proof.
  split; [reflexivity|].
  destruct (C7_snippet_fallback (lit "Hello World") (lit "xyz")) as [H _].
  - reflexivity.
  - exact H.
Defined.

(** ** C8: extraction failures degrade to placeholders *)

Lemma process_video_eq (rt : Runtime) (st : State) (c : bytes) (f : str)
    (i : VideoInfo) :
  _extract_video_info rt (write_file st (blob_path rt st video c f) c)
    (blob_path rt st video c f) = Return i ->
  process_video rt st c f
  = Return (committed st (blob_path rt st video c f) c (_get_file_hash c)
              (mkMetadata f (lit "video") (lower (path_suffix rt f))
                 (_get_file_hash c) (blob_path rt st video c f)
                 None None None
                 (Some (vi_duration i)) (Some (vi_transcription i))
                 (Some (vi_frames_count i)) None),
            mkResponse (_get_file_hash c) (lit "processed") (lit "video")
              None None (Some (vi_duration i))
              (Some (slice (vi_transcription i) 0 200))).
Proof.
  intros H. unfold process_video. unfold blob_path in H. cbn [kind_dir] in H.
  rewrite H. reflexivity.
Qed.

Lemma process_audio_eq (rt : Runtime) (st : State) (c : bytes) (f : str)
    (i : AudioInfo) :
  _extract_audio_info rt (write_file st (blob_path rt st audio c f) c)
    (blob_path rt st audio c f) = Return i ->
  process_audio rt st c f
  = Return (committed st (blob_path rt st audio c f) c (_get_file_hash c)
              (mkMetadata f (lit "audio") (lower (path_suffix rt f))
                 (_get_file_hash c) (blob_path rt st audio c f)
                 None None None
                 (Some (ai_duration i)) (Some (ai_transcription i))
                 None (Some (ai_sample_rate i))),
            mkResponse (_get_file_hash c) (lit "processed") (lit "audio")
              None None (Some (ai_duration i))
              (Some (slice (ai_transcription i) 0 200))).
Proof.
  intros H. unfold process_audio. unfold blob_path in H. cbn [kind_dir] in H.
  rewrite H. reflexivity.
Qed.

Lemma pdf_pages_fold (texts : list str) (acc : str) :
  fold_left
    (fun (a : Exc str) (page : Exc str) =>
       text <- a ;; t <- page ;; Return (text ++ t ++ newline))
    (map Return texts) (Return acc)
  = Return (acc ++ flat_map (fun t => t ++ newline) texts).
Proof.
  revert acc. induction texts as [|t texts IH]; intros acc; cbn [map fold_left flat_map].
  - now rewrite app_nil_r.
  - cbn [bind]. rewrite IH. now rewrite <- !app_assoc.
Qed.

Lemma pdf_pages_fold_raise (pages : list (Exc str)) (e : exn) :
  fold_left
    (fun (a : Exc str) (page : Exc str) =>
       text <- a ;; t <- page ;; Return (text ++ t ++ newline))
    pages (Raise e)
  = Raise e.
Proof. induction pages as [|p pages IH]; [reflexivity | exact IH]. Qed.

Lemma pdf_failure_placeholder (rt : Runtime) (content : bytes) (e : exn) :
  pdf_failure rt content e ->
  _extract_pdf_text rt content = Return (pdf_placeholder e).
Proof.
  unfold _extract_pdf_text.
  intros [H | [(u & H1 & H2) | (u & before & after & H1 & H2)]].
  - rewrite H. now destruct e.
  - rewrite H1, H2. now destruct e.
  - rewrite H1, H2. cbn [bind].
    rewrite fold_left_app, pdf_pages_fold. cbn [fold_left bind].
    rewrite pdf_pages_fold_raise. now destruct e.
Qed.

Lemma docx_failure_placeholder (rt : Runtime) (content : bytes) (e : exn) :
  docx_failure rt content e ->
  _extract_docx_text rt content = Return (docx_placeholder e).
Proof.
  unfold _extract_docx_text. intros [H | (u & H1 & H2)].
  - rewrite H. now destruct e.
  - rewrite H1, H2. now destruct e.
Qed.

Lemma video_failure_placeholder (rt : Runtime) (st : State) (path : str) (e : exn) :
  video_failure rt path (dict_get (files st) path) e ->
  _extract_video_info rt st path = Return (mkVideoInfo 0 (video_placeholder e) 0).
Proof.
  unfold _extract_video_info.
  intros [H | [(u & H1 & H2) | (u & d & H1 & H2 & H3)]].
  - rewrite H. now destruct e.
  - rewrite H1, H2. now destruct e.
  - rewrite H1, H2, H3. now destruct e.
Qed.

Lemma audio_failure_placeholder (rt : Runtime) (st : State) (path : str) (e : exn) :
  audio_failure rt path (dict_get (files st) path) e ->
  _extract_audio_info rt st path = Return (mkAudioInfo 0 (audio_placeholder e) 0).
Proof.
  unfold _extract_audio_info. intros [H | (u & H1 & H2)].
  - rewrite H. now destruct e.
  - rewrite H1, H2. now destruct e.
Qed.

Lemma blob_written (rt : Runtime) (st : State) (k : Kind) (c : bytes) (f : str) :
  dict_get (files (write_file st (blob_path rt st k c f) c)) (blob_path rt st k c f)
  = Some c.
Proof. cbn [files write_file]. apply dict_get_set_same. Qed.

(** A record found by the queries that occur in its searchable text. *)
Lemma found_by_its_text (st : State) (h : str) (m : Metadata) (q : str) :
  In (h, m) (metadata st) ->
  contains (lower (content_to_search m)) (lower q) = true ->
  exists r, In r (search st q None) /\
            Result.file_hash r = h /\ Result.metadata r = m.
Proof.
  intros Hin Hq. exists (result_of q (h, m)). split; [|split; reflexivity].
  rewrite search_filter. apply in_map. apply filter_In. split; [assumption|].
  unfold selected, matches. cbn [excluded snd negb andb]. exact Hq.
Qed.

(** C8.  Every failure of an extractor (the library missing, or any call of
    its [try] block raising) is turned into that extractor's placeholder:
    none of the four extractors raises.  So every ingestion, of any kind,
    returns with the status ["processed"], having stored the bytes at the
    blob path, put a record under the hash and written the snapshot.  The
    record holds what the extractor returned (the first 1000 characters of a
    document's text, the whole transcription of a video or audio file),
    which after a failure is the placeholder; and every query that occurs in
    that text, whatever the case, finds the record. *)
Theorem C8_extraction_failure_degrades
    (rt : Runtime) (k : Kind) (st : State) (content : bytes) (fname : str) :
  ((forall e, pdf_failure rt content e ->
      _extract_pdf_text rt content = Return (pdf_placeholder e)) /\
   (forall e, docx_failure rt content e ->
      _extract_docx_text rt content = Return (docx_placeholder e)) /\
   (forall s p e, video_failure rt p (dict_get (files s) p) e ->
      _extract_video_info rt s p = Return (mkVideoInfo 0 (video_placeholder e) 0)) /\
   (forall s p e, audio_failure rt p (dict_get (files s) p) e ->
      _extract_audio_info rt s p = Return (mkAudioInfo 0 (audio_placeholder e) 0))) /\
  ((exists t, _extract_pdf_text rt content = Return t) /\
   (exists t, _extract_docx_text rt content = Return t) /\
   (forall s p, exists i, _extract_video_info rt s p = Return i) /\
   (forall s p, exists i, _extract_audio_info rt s p = Return i)) /\
  exists st' resp m text,
    process rt k st content fname = Return (st', resp) /\
    r_status resp = lit "processed" /\
    r_file_hash resp = _get_file_hash content /\
    dict_get (files st') (blob_path rt st k content fname) = Some content /\
    dict_get (metadata st') (_get_file_hash content) = Some m /\
    metadata_json st' = Some (metadata st') /\
    extracted_text rt k st content fname = Return text /\
    (forall e, extraction_failure rt k st content fname e ->
               text = placeholder rt k fname e) /\
    match k with
    | document => text_content m = Some (slice text 0 1000)
    | video | audio => transcription m = Some text
    end /\
    (forall q, contains (lower (indexed_text k text)) (lower q) = true ->
       exists r, In r (search st' q None) /\
                 Result.file_hash r = _get_file_hash content /\
                 Result.metadata r = m).
Proof.
  split; [|split].
  - repeat split.
    + apply pdf_failure_placeholder.
    + apply docx_failure_placeholder.
    + intros s p. apply video_failure_placeholder.
    + intros s p. apply audio_failure_placeholder.
  - repeat split.
    + apply _extract_pdf_text_returns.
    + apply _extract_docx_text_returns.
    + intros s p. apply _extract_video_info_returns.
    + intros s p. apply _extract_audio_info_returns.
  - destruct k.
    + (* a document *)
      destruct (document_text_returns rt (lower (path_suffix rt fname)) content)
        as [text Ht].
      destruct (process_document_text rt st content fname text Ht)
        as (resp & H & Hh & Hs).
      match type of H with
      | _ = Return (committed _ _ _ _ ?m, _) => set (m0 := m) in *
      end.
      eexists; exists resp, m0, text. cbn [process extracted_text indexed_text].
      split; [exact H|]. split; [exact Hs|]. split; [exact Hh|].
      split; [rewrite committed_files; apply dict_get_set_same|].
      split; [rewrite committed_metadata; apply dict_get_set_same|].
      split; [apply committed_snapshot|].
      split; [exact Ht|].
      split; [|split; [reflexivity|]].
      * intros e [[Hext Hf] | [Hext Hf]]; cbn [placeholder]; unfold document_text in Ht.
        -- rewrite Hext in *. change (str_eqb (lit ".pdf") (lit ".txt")) with false in Ht.
           rewrite str_eqb_refl in *.
           rewrite (pdf_failure_placeholder rt content e Hf) in Ht. congruence.
        -- assert (Hne : str_eqb (lower (path_suffix rt fname)) (lit ".txt") = false /\
                         str_eqb (lower (path_suffix rt fname)) (lit ".pdf") = false).
           { unfold list_in in Hext. cbn [existsb] in Hext.
             rewrite orb_false_r in Hext. apply orb_true_iff in Hext.
             destruct Hext as [E | E]; apply str_eqb_eq in E; rewrite E;
               split; reflexivity. }
           destruct Hne as [H1 H2]. rewrite H1, H2, Hext in Ht. rewrite H2.
           rewrite (docx_failure_placeholder rt content e Hf) in Ht. congruence.
      * intros q Hq. apply found_by_its_text.
        -- rewrite committed_metadata. apply In_dict_set.
        -- unfold content_to_search, m0. cbn [file_type text_content get_or].
           now rewrite str_eqb_refl.
    + (* a video *)
      destruct (_extract_video_info_returns rt
                  (write_file st (blob_path rt st video content fname) content)
                  (blob_path rt st video content fname)) as [i Hi].
      pose proof (process_video_eq rt st content fname i Hi) as H.
      match type of H with
      | _ = Return (committed _ _ _ _ ?m, ?r) => set (m0 := m) in *; set (r0 := r) in *
      end.
      eexists; exists r0, m0, (vi_transcription i).
      cbn [process extracted_text indexed_text].
      split; [exact H|]. split; [reflexivity|]. split; [reflexivity|].
      split; [rewrite committed_files; apply dict_get_set_same|].
      split; [rewrite committed_metadata; apply dict_get_set_same|].
      split; [apply committed_snapshot|].
      split; [now rewrite Hi|].
      split; [|split; [reflexivity|]].
      * intros e Hf. cbn [extraction_failure placeholder] in *.
        rewrite <- (blob_written rt st video content fname) in Hf.
        apply video_failure_placeholder in Hf. rewrite Hf in Hi.
        injection Hi as <-. reflexivity.
      * intros q Hq. apply found_by_its_text.
        -- rewrite committed_metadata. apply In_dict_set.
        -- exact Hq.
    + (* an audio file *)
      destruct (_extract_audio_info_returns rt
                  (write_file st (blob_path rt st audio content fname) content)
                  (blob_path rt st audio content fname)) as [i Hi].
      pose proof (process_audio_eq rt st content fname i Hi) as H.
      match type of H with
      | _ = Return (committed _ _ _ _ ?m, ?r) => set (m0 := m) in *; set (r0 := r) in *
      end.
      eexists; exists r0, m0, (ai_transcription i).
      cbn [process extracted_text indexed_text].
      split; [exact H|]. split; [reflexivity|]. split; [reflexivity|].
      split; [rewrite committed_files; apply dict_get_set_same|].
      split; [rewrite committed_metadata; apply dict_get_set_same|].
      split; [apply committed_snapshot|].
      split; [now rewrite Hi|].
      split; [|split; [reflexivity|]].
      * intros e Hf. cbn [extraction_failure placeholder] in *.
        rewrite <- (blob_written rt st audio content fname) in Hf.
        apply audio_failure_placeholder in Hf. rewrite Hf in Hi.
        injection Hi as <-. reflexivity.
      * intros q Hq. apply found_by_its_text.
        -- rewrite committed_metadata. apply In_dict_set.
        -- exact Hq.
Qed.

(** ** C9: only the preview of a document is searched *)



(** ** C10: the query entry point and the empty query *)

(** C10.  [GET /search] answers an empty query with the status 400 and
    makes no call into the engine; every call of [search] it makes carries
    the query it was given, which is then not empty. *)
Theorem C10_empty_query_rejected (st : State) (file_types : option str) :
  search_files st [] file_types
  = ([], HTTPException 400 (lit "Query parameter is required")) /\
  (forall st' q ft q' types,
     In (CallSearch q' types) (fst (search_files st' q ft)) ->
     q' = q /\ q <> []).
Proof.
  split; [reflexivity|].
  intros st' q ft q' types Hin. unfold search_files in Hin.
  destruct q as [|c q]; cbn in Hin; [contradiction|].
  destruct Hin as [Heq | []]. inversion Heq. split; [reflexivity | discriminate].
Qed.

(* ================================================================== *)
(** * Further properties of the engine *)

(** ** The content hash *)

Lemma length_le_bytes (n : nat) (x : Z) : List.length (MD5.le_bytes n x) = n.
Proof. unfold MD5.le_bytes. now rewrite length_map, length_seq. Qed.

Lemma le_bytes_range (n : nat) (x b : Z) :
  In b (MD5.le_bytes n x) -> 0 <= b < 256.
Proof.
  unfold MD5.le_bytes. intros H. apply in_map_iff in H as [k [<- _]].
  apply Z.mod_pos_bound. lia.
Qed.

Lemma hex_digit_in (d : Z) : 0 <= d < 16 -> In (MD5.hex_digit d) hex_digits.
Proof.
  intros H.
  assert (Hd : d = 0 \/ d = 1 \/ d = 2 \/ d = 3 \/ d = 4 \/ d = 5 \/ d = 6 \/
               d = 7 \/ d = 8 \/ d = 9 \/ d = 10 \/ d = 11 \/ d = 12 \/
               d = 13 \/ d = 14 \/ d = 15) by lia.
  repeat (destruct Hd as [-> | Hd]; [vm_compute; tauto|]).
  subst d. vm_compute. tauto.
Qed.

(** The file hash is always 32 characters long, all of them hexadecimal
    digits in lower case. *)
Theorem file_hash_is_32_hex_digits (file_content : bytes) :
  List.length (_get_file_hash file_content) = 32%nat /\
  forall c, In c (_get_file_hash file_content) -> In c hex_digits.
Proof.
  unfold _get_file_hash, MD5.hexdigest.
  set (d := MD5.digest file_content).
  assert (Hlen : List.length d = 16%nat).
  { unfold d, MD5.digest. cbv zeta. rewrite !length_app, !length_le_bytes.
    reflexivity. }
  assert (Hrange : forall b, In b d -> 0 <= b < 256).
  { unfold d, MD5.digest. cbv zeta. intros b Hb.
    repeat (apply in_app_or in Hb as [Hb | Hb];
            [now apply le_bytes_range in Hb|]).
    now apply le_bytes_range in Hb. }
  clearbody d. split.
  - assert (H2 : forall l : list Z,
               List.length
                 (flat_map (fun b => [MD5.hex_digit (b / 16);
                                      MD5.hex_digit (b mod 16)]) l)
               = (2 * List.length l)%nat).
    { induction l as [|b l IH]; [reflexivity|].
      cbn [flat_map app List.length]. rewrite IH. lia. }
    rewrite H2, Hlen. reflexivity.
  - intros c Hc. apply in_flat_map in Hc as [b [Hb Hc]].
    specialize (Hrange b Hb).
    destruct Hc as [<- | [<- | []]]; apply hex_digit_in.
    + split; [apply Z.div_pos; lia | apply Z.div_lt_upper_bound; lia].
    + apply Z.mod_pos_bound. lia.
Qed.

(** ** Chunks and words *)

Lemma forallb_rev {A : Type} (f : A -> bool) (l : list A) :
  forallb f (rev l) = forallb f l.
Proof.
  induction l as [|x l IH]; [reflexivity|].
  simpl. rewrite forallb_app, IH. simpl. rewrite andb_true_r. apply andb_comm.
Qed.

Lemma truthy_rev {A : Type} (l : list A) : truthy (rev l) = truthy l.
Proof.
  destruct l as [|x l]; [reflexivity|]. simpl.
  destruct (rev l); reflexivity.
Qed.

(** [split] gives words only. *)
Lemma split_from_words (s cur : str) :
  forallb (fun c => negb (isspace c)) cur = true ->
  Forall (fun w => is_word w = true) (split_from cur s).
Proof.
  revert cur. induction s as [|c s IH]; intros cur Hcur.
  - destruct cur as [|x cur]; [constructor|].
    constructor; [|constructor].
    unfold is_word. rewrite truthy_rev, forallb_rev. now rewrite Hcur.
  - cbn [split_from]. destruct (isspace c) eqn:E.
    + destruct cur as [|x cur]; [now apply IH|].
      constructor; [|now apply IH].
      unfold is_word. rewrite truthy_rev, forallb_rev. now rewrite Hcur.
    + apply IH. simpl. now rewrite E, Hcur.
Qed.

Lemma split_words (s : str) : Forall (fun w => is_word w = true) (split s).
Proof. now apply split_from_words. Qed.

Lemma split_from_app_word (w cur s : str) :
  forallb (fun c => negb (isspace c)) w = true ->
  split_from cur (w ++ s) = split_from (rev w ++ cur) s.
Proof.
  revert cur. induction w as [|c w IH]; intros cur H; [reflexivity|].
  simpl in H. apply andb_true_iff in H as [Hc Hw].
  apply negb_true_iff in Hc. cbn [app split_from]. rewrite Hc.
  rewrite IH by assumption. simpl. now rewrite <- app_assoc.
Qed.

(** Splitting the words joined by single spaces gives the words back. *)
Lemma split_join (ws : list str) :
  Forall (fun w => is_word w = true) ws -> split (join (lit " ") ws) = ws.
Proof.
  induction 1 as [|w ws Hw Hws IH]; [reflexivity|].
  unfold is_word in Hw. apply andb_true_iff in Hw as [Hne Hclean].
  unfold split in *. destruct ws as [|w' ws].
  - cbn [join]. rewrite <- (app_nil_r w) at 1.
    rewrite split_from_app_word by assumption. rewrite app_nil_r.
    cbn [split_from]. destruct (rev w) eqn:E.
    + rewrite <- truthy_rev, E in Hne. discriminate.
    + now rewrite <- E, rev_involutive.
  - change (join (lit " ") (w :: w' :: ws))
      with (w ++ lit " " ++ join (lit " ") (w' :: ws)).
    rewrite split_from_app_word by assumption. rewrite app_nil_r.
    change (lit " " ++ join (lit " ") (w' :: ws))
      with (" "%char :: join (lit " ") (w' :: ws)).
    cbn [split_from]. change (isspace " "%char) with true. cbv iota.
    destruct (rev w) eqn:E.
    + rewrite <- truthy_rev, E in Hne. discriminate.
    + rewrite <- E, rev_involutive. now rewrite IH.
Qed.

Lemma words_inv_init : words_inv ChunkLoop.init [].
Proof. repeat split; constructor. Qed.

Lemma words_inv_step (N : Z) (st : ChunkLoop.t) (ws : list str) (w : str) :
  is_word w = true -> words_inv st ws ->
  words_inv (ChunkLoop.step N st w) (ws ++ [w]).
Proof.
  intros Hw (Hws & Hcur & Hchunks). destruct st as [chs cur size].
  unfold words_inv, ChunkLoop.step in *.
  cbn [ChunkLoop.chunks ChunkLoop.current_chunk ChunkLoop.current_size] in *.
  destruct ((size + len w >? N) && truthy cur) eqn:E;
    cbn [ChunkLoop.chunks ChunkLoop.current_chunk].
  - apply andb_true_iff in E as [_ Hne].
    split; [|split].
    + rewrite flat_map_app. cbn [flat_map]. rewrite app_nil_r.
      rewrite split_join by assumption. rewrite <- app_assoc.
      now rewrite app_assoc, Hws.
    + constructor; [assumption | constructor].
    + apply Forall_app. split; [assumption|].
      constructor; [|constructor]. rewrite split_join by assumption.
      destruct cur; [discriminate | discriminate].
  - split; [|split].
    + now rewrite app_assoc, Hws.
    + apply Forall_app. split; [assumption|]. constructor; [assumption | constructor].
    + assumption.
Qed.

Lemma words_inv_fold (N : Z) (ws' : list str) :
  Forall (fun w => is_word w = true) ws' ->
  forall st ws, words_inv st ws ->
  words_inv (fold_left (ChunkLoop.step N) ws' st) (ws ++ ws').
Proof.
  induction 1 as [|w ws' Hw Hws' IH]; intros st ws H.
  - now rewrite app_nil_r.
  - simpl. replace (ws ++ w :: ws') with ((ws ++ [w]) ++ ws')
      by now rewrite <- app_assoc.
    apply IH. now apply words_inv_step.
Qed.

Lemma words_inv_finish (st : ChunkLoop.t) (ws : list str) :
  words_inv st ws ->
  flat_map split (ChunkLoop.finish st) = ws /\
  Forall (fun c => split c <> []) (ChunkLoop.finish st).
Proof.
  intros (Hws & Hcur & Hchunks). unfold ChunkLoop.finish.
  destruct (ChunkLoop.current_chunk st) as [|w cur] eqn:E; cbn [truthy].
  - rewrite app_nil_r in Hws. now split.
  - split.
    + rewrite flat_map_app. cbn [flat_map]. rewrite app_nil_r.
      now rewrite split_join by assumption.
    + apply Forall_app. split; [assumption|].
      constructor; [|constructor]. rewrite split_join by assumption. discriminate.
Qed.

(** Splitting every chunk again gives exactly the words of the text, in
    order: chunking loses, repeats, reorders and cuts no word. *)
Theorem chunks_resplit_to_words (text : str) (N : Z) :
  flat_map split (_chunk_text text N) = split text.
Proof.
  unfold _chunk_text.
  apply (words_inv_finish _ (split text)).
  apply (words_inv_fold N (split text) (split_words text) ChunkLoop.init []).
  apply words_inv_init.
Qed.

Lemma length_flat_map_ge {A B : Type} (f : A -> list B) (l : list A) :
  Forall (fun x => f x <> []) l ->
  (List.length l <= List.length (flat_map f l))%nat.
Proof.
  induction 1 as [|x l Hx Hl IH]; [reflexivity|].
  cbn [flat_map List.length]. rewrite length_app.
  destruct (f x); [congruence | simpl; lia].
Qed.

(** A text without a word (empty, or all whitespace) has no chunk, and only
    such a text; no chunk is empty; and there are never more chunks than
    words. *)
Theorem chunks_follow_words (text : str) (N : Z) :
  (_chunk_text text N = [] <-> split text = []) /\
  (forall c, In c (_chunk_text text N) -> c <> []) /\
  (List.length (_chunk_text text N) <= List.length (split text))%nat.
Proof.
  pose proof (chunks_resplit_to_words text N) as Hre.
  assert (Hne : Forall (fun c => split c <> []) (_chunk_text text N)).
  { unfold _chunk_text. apply (words_inv_finish _ (split text)).
    apply (words_inv_fold N (split text) (split_words text) ChunkLoop.init []).
    apply words_inv_init. }
  split; [|split].
  - split.
    + intros E. now rewrite E in Hre.
    + intros E. unfold _chunk_text. now rewrite E.
  - intros c Hc E. rewrite Forall_forall in Hne. apply (Hne c Hc).
    now rewrite E.
  - rewrite <- Hre. now apply length_flat_map_ge.
Qed.

(** ** Snippets *)

Lemma startswith_iff (s pre : str) :
  startswith s pre = true <-> exists rest, s = pre ++ rest.
Proof.
  revert s. induction pre as [|p pre IH]; intros s; simpl.
  - split; [intros _; now exists s | reflexivity].
  - destruct s as [|c s].
    + split; [discriminate | intros [rest H]; discriminate].
    + rewrite andb_true_iff, Ascii.eqb_eq, IH. split.
      * intros [-> [rest ->]]. now exists rest.
      * intros [rest H]. inversion H; subst. split; [reflexivity | now exists rest].
Qed.

(** [sub in s] holds exactly when [s] is [sub] between two strings. *)
Lemma contains_iff (s sub : str) :
  contains s sub = true <-> exists before after, s = before ++ sub ++ after.
Proof.
  induction s as [|c s IH]; cbn [contains]; rewrite orb_true_iff, startswith_iff.
  - split.
    + intros [[rest H] | H]; [|discriminate]. now exists [], rest.
    + intros [before [after H]]. left.
      destruct before; [now exists after | discriminate].
  - rewrite IH. split.
    + intros [[rest H] | [before [after H]]].
      * now exists [], rest.
      * exists (c :: before), after. now rewrite H.
    + intros [before [after H]]. destruct before as [|b before].
      * left. now exists after.
      * right. inversion H; subst. now exists before, after.
Qed.

Lemma contains_app_l (p s sub : str) :
  contains s sub = true -> contains (p ++ s) sub = true.
Proof.
  rewrite !contains_iff. intros [before [after ->]].
  exists (p ++ before), after. now rewrite <- app_assoc.
Qed.

Lemma contains_app_r (s q sub : str) :
  contains s sub = true -> contains (s ++ q) sub = true.
Proof.
  rewrite !contains_iff. intros [before [after ->]].
  exists before, (after ++ q). now rewrite <- !app_assoc.
Qed.

(** Where [find] points, when it does not answer [-1]. *)
Lemma find_from_spec (s sub : str) :
  forall i, find_from i s sub <> -1 -> 0 <= i ->
  exists before after,
    s = before ++ sub ++ after /\ find_from i s sub = i + len before.
Proof.
  induction s as [|c s IH]; intros i Hne Hi; cbn [find_from] in *.
  - destruct (startswith [] sub) eqn:E; [|congruence].
    apply startswith_iff in E as [rest E].
    exists [], rest. split; [assumption | unfold len; simpl; lia].
  - destruct (startswith (c :: s) sub) eqn:E.
    + apply startswith_iff in E as [rest E].
      exists [], rest. split; [assumption | unfold len; simpl; lia].
    + destruct (IH (i + 1) Hne ltac:(lia)) as (before & after & -> & Hf).
      exists (c :: before), after. split; [reflexivity|].
      rewrite Hf. unfold len. simpl List.length. lia.
Qed.

Lemma find_range (s sub : str) : find s sub = -1 \/ 0 <= find s sub.
Proof.
  unfold find. destruct (contains s sub) eqn:E.
  - right. now apply find_from_present.
  - left. now apply find_from_absent.
Qed.

(** On 8-bit characters lower-casing is character by character: it keeps
    lengths and goes through slices and concatenations. *)
Lemma len_lower (s : str) : len (lower s) = len s.
Proof. unfold len, lower. now rewrite length_map. Qed.

Lemma lower_app (a b : str) : lower (a ++ b) = lower a ++ lower b.
Proof. apply map_app. Qed.

Lemma lower_slice (s : str) (a b : Z) : lower (slice s a b) = slice (lower s) a b.
Proof.
  unfold slice. rewrite len_lower. unfold lower.
  now rewrite skipn_map, firstn_map.
Qed.

Lemma len_nonneg {A : Type} (l : list A) : 0 <= len l.
Proof. unfold len. lia. Qed.

(** A slice that covers the middle part of a string keeps it whole. *)
Lemma slice_covers (before mid after : str) (a b : Z) :
  0 <= a <= len before ->
  len before + len mid <= b <= len (before ++ mid ++ after) ->
  exists p q, slice (before ++ mid ++ after) a b = p ++ mid ++ q.
Proof.
  intros Ha Hb. rewrite !len_app in Hb.
  pose proof (len_nonneg mid). pose proof (len_nonneg after).
  unfold slice. rewrite !len_app.
  assert (Ea : adjust_index (len before + (len mid + len after)) a = a).
  { unfold adjust_index. destruct (a <? 0) eqn:E; [apply Z.ltb_lt in E|]; lia. }
  assert (Eb : adjust_index (len before + (len mid + len after)) b = b).
  { unfold adjust_index. destruct (b <? 0) eqn:E; [apply Z.ltb_lt in E|]; lia. }
  rewrite Ea, Eb. unfold len in *.
  exists (skipn (Z.to_nat a) before),
         (firstn (Z.to_nat b - List.length before - List.length mid) after).
  rewrite skipn_app.
  replace (Z.to_nat a - List.length before)%nat with 0%nat by lia.
  cbn [skipn]. rewrite firstn_app, length_skipn.
  rewrite (firstn_all2 (skipn (Z.to_nat a) before))
    by (rewrite length_skipn; lia).
  rewrite firstn_app.
  rewrite (firstn_all2 mid) by lia.
  do 3 f_equal. lia.
Qed.

Lemma len_slice_le (s : str) (a b : Z) :
  0 <= a -> 0 <= b -> len (slice s a b) <= Z.max 0 (b - a).
Proof.
  intros Ha Hb. unfold slice.
  rewrite !adjust_index_nonneg by (try apply len_nonneg; assumption).
  unfold len. pose proof (firstn_le_length
    (Z.to_nat (Z.min (Z.of_nat (List.length s)) b
               - Z.min (Z.of_nat (List.length s)) a))
    (skipn (Z.to_nat (Z.min (Z.of_nat (List.length s)) a)) s)).
  lia.
Qed.

(** On text and queries of 8-bit characters (ASCII and Latin-1), where
    lower-casing keeps every length and position: when the query occurs in
    the text, whatever the case, and the context size is not negative, the
    snippet contains the query, whatever the case. *)
Theorem snippet_shows_the_match (text query : str) (context_size : Z) :
  0 <= context_size ->
  contains (lower text) (lower query) = true ->
  contains (lower (_get_snippet text query context_size)) (lower query) = true.
Proof.
  intros Hcs Hin. unfold _get_snippet.
  pose proof (find_from_present _ _ 0 Hin) as Hpos. fold (find (lower text) (lower query)) in Hpos.
  set (index := find (lower text) (lower query)) in *.
  assert (Hne : index <> -1) by lia.
  destruct (find_from_spec (lower text) (lower query) 0 Hne ltac:(lia))
    as (before & after & Htext & Hidx).
  fold (find (lower text) (lower query)) in Hidx. fold index in Hidx.
  destruct (index =? -1) eqn:E; [apply Z.eqb_eq in E; lia|]. cbv zeta.
  set (start := Z.max 0 (index - context_size / 2)).
  set (end_ := Z.min (len text) (index + len query + context_size / 2)).
  assert (Hhalf : 0 <= context_size / 2) by (apply Z.div_pos; lia).
  assert (Hlen : len text = len before + (len (lower query) + len after)).
  { rewrite <- (len_lower text), Htext. now rewrite !len_app. }
  pose proof (len_nonneg after). rewrite len_lower in Hlen.
  assert (Hwin : contains (lower (slice text start end_)) (lower query) = true).
  { rewrite lower_slice, Htext.
    destruct (slice_covers before (lower query) after start end_) as (p & q & ->).
    - unfold start. lia.
    - rewrite !len_app, len_lower. unfold end_. lia.
    - apply contains_iff. now exists p, q. }
  destruct (start >? 0); destruct (end_ <? len text); rewrite ?lower_app.
  - apply contains_app_r, contains_app_l, Hwin.
  - apply contains_app_l, Hwin.
  - apply contains_app_r, Hwin.
  - exact Hwin.
Qed.

Lemma snippet_shows_the_match_witness :
  0 <= 4 /\
  contains (lower (lit "Hello World")) (lower (lit "WOR")) = true /\
  contains (lower (_get_snippet (lit "Hello World") (lit "WOR") 4))
           (lower (lit "WOR")) = true.
Proof.
  split; [lia|]. split; [reflexivity|].
  apply (snippet_shows_the_match (lit "Hello World") (lit "WOR") 4);
    [lia | reflexivity].
Defined.

(** A snippet is never longer than the query, the context size and the two
    ellipsis markers together. *)
Theorem snippet_length_bounded (text query : str) (context_size : Z) :
  0 <= context_size ->
  len (_get_snippet text query context_size) <= len query + context_size + 6.
Proof.
  intros Hcs. unfold _get_snippet.
  set (index := find (lower text) (lower query)).
  pose proof (find_range (lower text) (lower query)) as Hidx. fold index in Hidx.
  pose proof (len_nonneg query). pose proof (len_nonneg text).
  assert (Hhalf : 0 <= context_size / 2 /\ 2 * (context_size / 2) <= context_size).
  { split; [apply Z.div_pos; lia | apply Z.mul_div_le; lia]. }
  destruct (index =? -1) eqn:E.
  - rewrite len_app. change (len ellipsis) with 3.
    pose proof (len_slice_le text 0 context_size ltac:(lia) Hcs). lia.
  - apply Z.eqb_neq in E. cbv zeta.
    set (start := Z.max 0 (index - context_size / 2)).
    set (end_ := Z.min (len text) (index + len query + context_size / 2)).
    pose proof (len_slice_le text start end_ ltac:(unfold start; lia)
                  ltac:(unfold end_; lia)) as Hs.
    assert (Hw : len (slice text start end_) <= len query + context_size)
      by (unfold start, end_ in *; lia).
    destruct (start >? 0); destruct (end_ <? len text);
      rewrite ?len_app; change (len ellipsis) with 3; lia.
Qed.

Lemma snippet_length_bounded_witness :
  0 <= 100 /\
  len (_get_snippet (lit "Hello World") (lit "wor") 100) <= len (lit "wor") + 100 + 6.
Proof.
  split; [lia|].
  apply (snippet_length_bounded (lit "Hello World") (lit "wor") 100). lia.
Defined.

(** ** Invariants of a running engine *)

(** The record an ingestion writes. *)
Lemma process_record (rt : Runtime) (k : Kind) (st : State) (c : bytes) (f : str) :
  exists m resp,
    process rt k st c f
    = Return (committed st (blob_path rt st k c f) c (_get_file_hash c) m, resp) /\
    filename m = f /\
    file_type m = kind_name k /\
    file_extension m = lower (path_suffix rt f) /\
    file_hash m = _get_file_hash c /\
    file_path m = blob_path rt st k c f /\
    r_file_hash resp = _get_file_hash c /\
    r_status resp = lit "processed" /\
    r_type resp = kind_name k.
Proof.
  destruct k; cbn [process].
  - destruct (document_text_returns rt (lower (path_suffix rt f)) c) as [text Ht].
    unfold process_document. rewrite Ht. cbn [bind].
    eexists; eexists. repeat split.
  - unfold process_video.
    destruct (_extract_video_info_returns rt
                (write_file st (blob_path rt st video c f) c)
                (blob_path rt st video c f)) as [i Hi].
    unfold blob_path in Hi. cbn [kind_dir] in Hi. rewrite Hi. cbn [bind].
    eexists; eexists. repeat split.
  - unfold process_audio.
    destruct (_extract_audio_info_returns rt
                (write_file st (blob_path rt st audio c f) c)
                (blob_path rt st audio c f)) as [i Hi].
    unfold blob_path in Hi. cbn [kind_dir] in Hi. rewrite Hi. cbn [bind].
    eexists; eexists. repeat split.
Qed.

Lemma In_dict_set_inv {V : Type} (d : dict V) (k h : str) (v m : V) :
  dict_wf d -> In (h, m) (dict_set d k v) ->
  (h = k /\ m = v) \/ (h <> k /\ In (h, m) d).
Proof.
  unfold dict_wf. induction d as [|[k0 v0] d IH]; intros Hwf Hin.
  - destruct Hin as [E | []]. inversion E. now left.
  - unfold keys in Hwf. simpl in Hwf. apply andb_true_iff in Hwf as [Hk0 Hwf].
    apply negb_true_iff in Hk0. cbn [dict_set] in Hin.
    destruct (str_eqb k0 k) eqn:E.
    + apply str_eqb_eq in E. subst k0. destruct Hin as [E | Hin].
      * inversion E. now left.
      * right. split; [|now right]. intros ->.
        apply In_keys in Hin. unfold keys in Hin. congruence.
    + apply str_eqb_neq in E. destruct Hin as [E' | Hin].
      * inversion E'; subst. right. split; [assumption | now left].
      * destruct (IH Hwf Hin) as [H | [H1 H2]]; [now left|].
        right. split; [assumption | now right].
Qed.

Lemma app_same_length_inj {A : Type} (a b x y : list A) :
  List.length a = List.length b -> a ++ x = b ++ y -> a = b.
Proof.
  revert b. induction a as [|c a IH]; intros [|d b] Hl H; simpl in *;
    try discriminate; [reflexivity|].
  inversion H; subst. f_equal. apply IH; [lia | assumption].
Qed.

(** Blob paths tell the kind and the file name apart. *)
Lemma path_join_kind_inj (st : State) (storage_dir : str) (k1 k2 : Kind) (x y : str) :
  rooted_at storage_dir st ->
  path_join (kind_dir st k1) x = path_join (kind_dir st k2) y ->
  k1 = k2 /\ x = y.
Proof.
  intros (Hd & Hv & Ha) E. unfold path_join in E.
  destruct k1, k2; cbn [kind_dir] in E; rewrite ?Hd, ?Hv, ?Ha in E;
    unfold path_join in E; rewrite <- !app_assoc in E; apply app_inv_head in E;
    cbn in E; try discriminate; split; try reflexivity;
    repeat (injection E as E); exact E.
Qed.

Lemma record_ok_new (rt : Runtime) (st : State) (k : Kind) (c : bytes) (f : str)
    (m : Metadata) :
  file_type m = kind_name k ->
  file_extension m = lower (path_suffix rt f) ->
  file_hash m = _get_file_hash c ->
  file_path m = blob_path rt st k c f ->
  record_ok (committed st (blob_path rt st k c f) c (_get_file_hash c) m)
    (_get_file_hash c, m).
Proof.
  intros Ht He Hh Hp. unfold record_ok. cbn [fst snd].
  split; [assumption|]. split.
  - exists k. split; [assumption|]. rewrite committed_dirs, Hp, He. reflexivity.
  - exists c. split; [|reflexivity].
    rewrite committed_files, Hp. apply dict_get_set_same.
Qed.

Lemma record_ok_kept (rt : Runtime) (st : State) (storage_dir : str)
    (k : Kind) (c : bytes) (f : str) (m' : Metadata) (item : str * Metadata) :
  rooted_at storage_dir st ->
  fst item <> _get_file_hash c ->
  record_ok st item ->
  record_ok (committed st (blob_path rt st k c f) c (_get_file_hash c) m') item.
Proof.
  intros Hroot Hne (Hh & (k0 & Hk0 & Hp) & (b & Hb & Hd)). unfold record_ok.
  split; [assumption|]. split.
  - exists k0. split; [assumption|]. now rewrite committed_dirs.
  - exists b. split; [|assumption].
    rewrite committed_files. rewrite dict_get_set_other; [assumption|].
    intros E. rewrite Hp in E. unfold blob_path in E.
    apply (path_join_kind_inj st storage_dir) in E as [_ E]; [|assumption].
    apply Hne. apply app_same_length_inj in E; [assumption|].
    rewrite <- Hd.
    destruct (file_hash_is_32_hex_digits b) as [-> _].
    destruct (file_hash_is_32_hex_digits c) as [-> _]. reflexivity.
Qed.

(** What every reachable state satisfies. *)
Lemma reachable_inv (rt : Runtime) (storage_dir : str) (st : State) :
  reachable rt storage_dir st ->
  rooted_at storage_dir st /\
  embeddings_dir st = path_join storage_dir (lit "embeddings") /\
  _load_metadata (metadata_json st) = metadata st /\
  dict_wf (metadata st) /\
  Forall (record_ok st) (metadata st).
Proof.
  induction 1 as [|k st c f st' r Hreach IH Hproc].
  - repeat split; constructor.
  - destruct IH as (Hroot & Hemb & Hload & Hwf & Hrec).
    destruct (process_record rt k st c f)
      as (m & resp & Hp & _ & Ht & He & Hh & Hpath & _).
    rewrite Hp in Hproc. injection Hproc as <- _.
    split; [|split; [|split; [|split]]].
    + destruct Hroot as (Hd & Hv & Ha). repeat split; assumption.
    + exact Hemb.
    + reflexivity.
    + rewrite committed_metadata. now apply dict_wf_set.
    + apply Forall_forall. intros [h m0] Hin.
      rewrite committed_metadata in Hin.
      apply In_dict_set_inv in Hin as [[-> ->] | [Hne Hin]]; [| |assumption].
      * now apply (record_ok_new rt).
      * apply (record_ok_kept rt st storage_dir); [assumption | assumption |].
        rewrite Forall_forall in Hrec. now apply Hrec.
Qed.

Lemma reachable_after_document (rt : Runtime) (storage_dir : str) (st : State)
    (b : bytes) (f : str) :
  reachable rt storage_dir st ->
  reachable rt storage_dir (after_document rt st b f).
Proof.
  intros H. unfold after_document.
  destruct (process_document rt st b f) as [[st' r] | e] eqn:E; [|assumption].
  now apply (reach_process rt storage_dir document st b f st' r).
Qed.

(** Restarting the engine on its storage directory, at any time, gives back
    the very state it was in: the directories, the index read from the
    snapshot, the blobs. *)
Theorem restart_restores_engine (rt : Runtime) (storage_dir : str) (st : State) :
  reachable rt storage_dir st ->
  __init__ storage_dir (files st) (metadata_json st) = st.
Proof.
  intros H. destruct (reachable_inv rt storage_dir st H)
    as ((Hd & Hv & Ha) & He & Hload & _).
  destruct st as [dd vd ad ed fs snap md]. unfold __init__.
  cbn [doc_dir video_dir audio_dir embeddings_dir files metadata_json metadata] in *.
  now subst.
Qed.

Lemma restart_restores_engine_witness :
  reachable bare_runtime (lit "data") hello_index /\
  __init__ (lit "data") (files hello_index) (metadata_json hello_index)
  = hello_index.
Proof.
  assert (H : reachable bare_runtime (lit "data") hello_index)
    by (apply reachable_after_document, reach_start).
  split; [exact H|].
  apply (restart_restores_engine bare_runtime (lit "data") hello_index H).
Defined.

(** In every state the engine reaches from an empty directory, the keys of
    the index are pairwise different, and every record agrees with its key
    and with the disk: its [file_hash] is its key, its kind is one of the
    three, its [file_path] is that kind's directory followed by the hash and
    the extension, and the blob stored there has the key for digest. *)
Theorem reachable_index_consistent (rt : Runtime) (storage_dir : str) (st : State) :
  reachable rt storage_dir st ->
  dict_wf (metadata st) /\
  forall h m, In (h, m) (metadata st) ->
    file_hash m = h /\
    (exists k, file_type m = kind_name k /\
               file_path m = path_join (kind_dir st k) (h ++ file_extension m)) /\
    (exists b, dict_get (files st) (file_path m) = Some b /\
               _get_file_hash b = h).
Proof.
  intros H. destruct (reachable_inv rt storage_dir st H)
    as (_ & _ & _ & Hwf & Hrec).
  split; [assumption|]. intros h m Hin.
  rewrite Forall_forall in Hrec. exact (Hrec (h, m) Hin).
Qed.

Lemma reachable_index_consistent_witness :
  reachable bare_runtime (lit "data") hello_index /\
  dict_wf (metadata hello_index).
Proof.
  assert (H : reachable bare_runtime (lit "data") hello_index)
    by (apply reachable_after_document, reach_start).
  split; [exact H|].
  apply (reachable_index_consistent bare_runtime (lit "data") hello_index H).
Defined.

(** ** Detail, listing and search *)

Lemma list_files_hashes (st : State) :
  map Listing.file_hash (list_files st) = keys (metadata st).
Proof. unfold list_files, keys. rewrite map_map. reflexivity. Qed.

Lemma dict_get_None_iff {V : Type} (d : dict V) (k : str) :
  dict_get d k = None <-> list_in k (keys d) = false.
Proof.
  induction d as [|[k0 v0] d IH]; [now split|].
  unfold keys, list_in in *. simpl.
  destruct (str_eqb k0 k) eqn:E.
  - apply str_eqb_eq in E. subst. rewrite str_eqb_refl. now split.
  - assert (E' : str_eqb k k0 = false).
    { apply str_eqb_neq. apply str_eqb_neq in E. congruence. }
    now rewrite E'.
Qed.

(** After an ingestion the detail lookup by the content hash gives the new
    record, with the file name and the kind it was ingested under, and the
    lookup by any other hash answers as before. *)
Theorem get_file_info_after_ingestion
    (rt : Runtime) (k : Kind) (st : State) (c : bytes) (f : str) :
  exists st' r m,
    process rt k st c f = Return (st', r) /\
    get_file_info st' (_get_file_hash c) = Some m /\
    filename m = f /\
    file_type m = kind_name k /\
    forall h, h <> _get_file_hash c -> get_file_info st' h = get_file_info st h.
Proof.
  destruct (process_record rt k st c f) as (m & r & Hp & Hf & Ht & _).
  eexists; exists r, m. split; [exact Hp|].
  unfold get_file_info. rewrite committed_metadata.
  split; [apply dict_get_set_same|]. split; [assumption|]. split; [assumption|].
  intros h Hne. now apply dict_get_set_other.
Qed.

(** The detail lookup finds nothing exactly for the hashes that the listing
    does not show. *)
Theorem get_file_info_none_iff_unlisted (st : State) (h : str) :
  get_file_info st h = None <->
  ~ In h (map Listing.file_hash (list_files st)).
Proof.
  unfold get_file_info. rewrite list_files_hashes, dict_get_None_iff.
  rewrite <- list_in_In. destruct (list_in h (keys (metadata st))); split;
    congruence.
Qed.

(** An ingestion leaves the listing as it was when the content is already
    indexed (the record keeps its place), and otherwise adds one entry, for
    the new hash, at the end. *)
Theorem list_files_after_ingestion
    (rt : Runtime) (k : Kind) (st : State) (c : bytes) (f : str) :
  exists st' r,
    process rt k st c f = Return (st', r) /\
    map Listing.file_hash (list_files st')
    = if list_in (_get_file_hash c) (map Listing.file_hash (list_files st))
      then map Listing.file_hash (list_files st)
      else map Listing.file_hash (list_files st) ++ [_get_file_hash c].
Proof.
  destruct (process_record rt k st c f) as (m & r & Hp & _).
  eexists; exists r. split; [exact Hp|].
  rewrite !list_files_hashes, committed_metadata. apply keys_dict_set.
Qed.

(** Every result of a search is a record of the index: the detail lookup by
    its hash gives the metadata it carries, its file name and kind are those
    of that metadata, and its hash is listed; so there are never more
    results than listed files. *)
Theorem search_results_agree_with_index
    (st : State) (query : str) (file_types : option (list str)) :
  dict_wf (metadata st) ->
  Forall (fun r =>
            get_file_info st (Result.file_hash r) = Some (Result.metadata r) /\
            Result.filename r = filename (Result.metadata r) /\
            Result.file_type r = file_type (Result.metadata r) /\
            In (Result.file_hash r) (map Listing.file_hash (list_files st)))
         (search st query file_types) /\
  (List.length (search st query file_types) <= List.length (list_files st))%nat.
Proof.
  intros Hwf. rewrite search_filter. split.
  - apply Forall_forall. intros r Hr.
    apply in_map_iff in Hr as [[h m] [<- Hin]].
    apply filter_In in Hin as [Hin _]. cbn.
    split; [now apply dict_get_In|]. split; [reflexivity|]. split; [reflexivity|].
    rewrite list_files_hashes. apply list_in_In. now apply (In_keys _ _ m).
  - rewrite length_map. unfold list_files. rewrite length_map.
    apply filter_length_le.
Qed.

Lemma search_results_agree_with_index_witness :
  dict_wf (metadata hello_index) /\
  (List.length (search hello_index (lit "hello") None)
   <= List.length (list_files hello_index))%nat.
Proof.
  split; [reflexivity|].
  apply (search_results_agree_with_index hello_index (lit "hello") None).
  reflexivity.
Defined.

(** A search under a non-empty kind filter returns the results of the
    unfiltered search whose kind is in the filter, in the same order. *)
Theorem search_filter_narrows (st : State) (query : str) (F : list str) :
  F <> [] ->
  search st query (Some F)
  = filter (fun r => list_in (Result.file_type r) F) (search st query None).
Proof.
  intros HF. destruct F as [|x F]; [congruence|]. clear HF.
  assert (Hsel : forall item,
            selected query (Some (x :: F)) item
            = selected query None item
              && list_in (file_type (snd item)) (x :: F)).
  { intros item. unfold selected, excluded. cbn [truthy andb negb].
    rewrite negb_involutive.
    destruct (list_in (file_type (snd item)) (x :: F));
      destruct (matches query (snd item)); reflexivity. }
  rewrite !search_filter.
  induction (metadata st) as [|[h m] items IH]; [reflexivity|].
  cbn [filter]. rewrite Hsel.
  destruct (selected query None (h, m)); cbn [andb map filter snd].
  - change (Result.file_type (result_of query (h, m))) with (file_type m).
    destruct (list_in (file_type m) (x :: F)); cbn [map]; now rewrite IH.
  - exact IH.
Qed.

Lemma search_filter_narrows_witness :
  [lit "document"] <> [] /\
  search hello_index (lit "hello") (Some [lit "document"])
  = filter (fun r => list_in (Result.file_type r) [lit "document"])
           (search hello_index (lit "hello") None).
Proof.
  split; [discriminate|].
  apply (search_filter_narrows hello_index (lit "hello") [lit "document"]).
  discriminate.
Defined.

(** A document is returned by an unfiltered search exactly when the query
    occurs, whatever the case, in the first 1000 characters of its extracted
    text. *)
Theorem document_found_iff_in_preview
    (rt : Runtime) (st : State) (content : bytes) (fname text query : str) :
  dict_wf (metadata st) ->
  document_text rt (lower (path_suffix rt fname)) content = Return text ->
  exists st' resp,
    process_document rt st content fname = Return (st', resp) /\
    ((exists r, In r (search st' query None) /\
                Result.file_hash r = _get_file_hash content)
     <-> contains (lower (firstn 1000 text)) (lower query) = true).
Proof.
  intros Hwf Htext.
  destruct (process_document_text rt st content fname text Htext)
    as (resp & H & _ & _).
  match type of H with
  | _ = Return (committed _ _ _ _ ?m, _) => set (m0 := m) in *
  end.
  assert (Hcs : content_to_search m0 = firstn 1000 text).
  { unfold content_to_search, m0. cbn [file_type text_content get_or].
    rewrite str_eqb_refl. now rewrite slice_prefix by lia. }
  eexists; exists resp. split; [exact H|].
  rewrite search_filter, committed_metadata. split.
  - intros [r [Hr Hh]]. apply in_map_iff in Hr as [[h m] [<- Hin]].
    apply filter_In in Hin as [Hin Hsel].
    rewrite result_of_hash in Hh. cbn [fst] in Hh. subst h.
    apply dict_get_In in Hin; [|now apply dict_wf_set].
    rewrite dict_get_set_same in Hin.
    assert (Hm : m = m0) by congruence. subst m.
    unfold selected, matches in Hsel. cbn [snd excluded negb andb] in Hsel.
    now rewrite Hcs in Hsel.
  - intros Hc. exists (result_of query (_get_file_hash content, m0)).
    split; [|reflexivity]. apply in_map. apply filter_In.
    split; [apply In_dict_set|].
    unfold selected, matches. cbn [snd excluded negb andb]. now rewrite Hcs.
Qed.

Lemma document_found_iff_in_preview_witness :
  dict_wf (metadata fresh) /\
  document_text bare_runtime (lower (path_suffix bare_runtime (lit "hello.txt")))
    (blit "hello world")
  = Return (lit "hello world") /\
  exists st' resp,
    process_document bare_runtime fresh (blit "hello world") (lit "hello.txt")
    = Return (st', resp) /\
    ((exists r, In r (search st' (lit "WORLD") None) /\
                Result.file_hash r = _get_file_hash (blit "hello world"))
     <-> contains (lower (firstn 1000 (lit "hello world"))) (lower (lit "WORLD"))
         = true).
Proof.
  split; [reflexivity|]. split; [reflexivity|].
  apply (document_found_iff_in_preview bare_runtime fresh (blit "hello world")
           (lit "hello.txt") (lit "hello world") (lit "WORLD"));
    reflexivity.
Defined.

Lemma filter_other_keys_dict_set {V : Type} (d : dict V) (k : str) (v : V) :
  filter (fun item => negb (str_eqb (fst item) k)) (dict_set d k v)
  = filter (fun item => negb (str_eqb (fst item) k)) d.
Proof.
  induction d as [|[k0 v0] d IH]; cbn [dict_set filter fst].
  - now rewrite str_eqb_refl.
  - destruct (str_eqb k0 k) eqn:E; cbn [filter fst]; rewrite E; cbn [negb].
    + reflexivity.
    + now rewrite IH.
Qed.

(** An ingestion changes nothing to what a search returns for the other
    files: leaving out the results for the ingested hash, the search gives
    the same results, in the same order, before and after. *)
Theorem ingestion_keeps_other_results
    (rt : Runtime) (k : Kind) (st : State) (c : bytes) (f : str)
    (query : str) (file_types : option (list str)) :
  exists st' r,
    process rt k st c f = Return (st', r) /\
    filter (fun x => negb (str_eqb (Result.file_hash x) (_get_file_hash c)))
           (search st' query file_types)
    = filter (fun x => negb (str_eqb (Result.file_hash x) (_get_file_hash c)))
             (search st query file_types).
Proof.
  destruct (process_record rt k st c f) as (m & r & Hp & _).
  eexists; exists r. split; [exact Hp|].
  rewrite !search_filter, committed_metadata.
  assert (Hcomm : forall items : dict Metadata,
    filter (fun x => negb (str_eqb (Result.file_hash x) (_get_file_hash c)))
           (map (result_of query) (filter (selected query file_types) items))
    = map (result_of query)
          (filter (selected query file_types)
             (filter (fun item => negb (str_eqb (fst item) (_get_file_hash c)))
                     items))).
  { induction items as [|[h0 m0] items IH]; [reflexivity|].
    cbn [filter fst].
    destruct (selected query file_types (h0, m0)) eqn:Es;
      destruct (str_eqb h0 (_get_file_hash c)) eqn:Eh;
      cbn [map filter negb result_of Result.file_hash];
      rewrite ?Eh, ?Es; cbn [negb map]; now rewrite IH. }
  now rewrite !Hcomm, filter_other_keys_dict_set.
Qed.

(** ** The upload routes *)

(** An upload without a file name, or with an extension outside the route's
    list, is answered with the status 400 without any call into the engine
    and without any change of state; any other upload makes one call of the
    route's ingestion, which returns, and is answered with its result. *)
Theorem upload_validates_before_ingesting
    (rt : Runtime) (k : Kind) (st : State) (file_filename : option str)
    (content : bytes) :
  match file_filename with
  | None =>
      upload_route rt k st file_filename content
      = ([], Return (st, HTTPException 400 (lit "No file provided")))
  | Some f =>
      if truthy f && list_in (lower (path_suffix rt f)) (allowed_extensions k)
      then exists st' resp,
             process rt k st content f = Return (st', resp) /\
             upload_route rt k st file_filename content
             = ([CallProcess (kind_name k) content f], Return (st', OK resp)) /\
             r_status resp = lit "processed"
      else exists detail,
             upload_route rt k st file_filename content
             = ([], Return (st, HTTPException 400 detail))
  end.
Proof.
  destruct file_filename as [f|]; [|now destruct k].
  destruct (process_record rt k st content f)
    as (m & resp & Hp & _ & _ & _ & _ & _ & _ & Hs & _).
  destruct (truthy f) eqn:Ef; cbn [andb].
  - destruct (list_in (lower (path_suffix rt f)) (allowed_extensions k)) eqn:El.
    + eexists; exists resp. split; [exact Hp|]. split; [|exact Hs].
      destruct k; cbn [process allowed_extensions] in *;
        unfold upload_route, upload_document, upload_video, upload_audio, upload;
        rewrite Ef, El; cbn [negb]; rewrite Hp; reflexivity.
    + destruct k; cbn [allowed_extensions] in El;
        unfold upload_route, upload_document, upload_video, upload_audio, upload;
        rewrite Ef, El; cbn [negb]; eexists; reflexivity.
  - destruct k;
      unfold upload_route, upload_document, upload_video, upload_audio, upload;
      rewrite Ef; cbn [negb]; eexists; reflexivity.
Qed.

(** [process_document] answers with the text ["Unsupported document type: "]
    and the extension exactly for the extensions that the document upload
    route refuses; for the four it lets through, the text comes from the
    UTF-8 decoder, the PDF extractor or the DOCX extractor. *)
Theorem unsupported_placeholder_iff_refused
    (rt : Runtime) (file_ext : str) (file_content : bytes) :
  if list_in file_ext (allowed_extensions document)
  then document_text rt file_ext file_content
       = Return (decode_utf8_ignore rt file_content) \/
       document_text rt file_ext file_content
       = _extract_pdf_text rt file_content \/
       document_text rt file_ext file_content
       = _extract_docx_text rt file_content
  else document_text rt file_ext file_content
       = Return (lit "Unsupported document type: " ++ file_ext).
Proof.
  unfold document_text, allowed_extensions, list_in. cbn [existsb].
  destruct (str_eqb file_ext (lit ".txt")) eqn:Etxt;
    destruct (str_eqb file_ext (lit ".pdf")) eqn:Epdf;
    destruct (str_eqb file_ext (lit ".docx")) eqn:Edocx;
    destruct (str_eqb file_ext (lit ".doc")) eqn:Edoc;
    cbn [orb]; auto.
Qed.

(** ** The media extractors *)

Ltac run_extractor :=
  repeat match goal with
         | |- context [bind ?x _] =>
             destruct x as [? | [? | ?]]; cbn [bind try_except]
         | |- context [let '(_, _) := ?x in _] => destruct x
         end.

(** The video and audio extractors always return, and what they return is
    never a transcription of the file: either the note that transcription
    needs a speech-to-text service, or, with a duration and an auxiliary
    count of zero, the note that the library is missing or the message of
    the error.  A video never reports more than 10 frames. *)
Theorem media_transcription_is_placeholder
    (rt : Runtime) (st : State) (path : str) :
  (exists i, _extract_video_info rt st path = Return i /\
     vi_frames_count i <= 10 /\
     (vi_transcription i
      = lit "Video transcription requires Whisper or similar speech-to-text service" \/
      (vi_duration i = 0%Q /\ vi_frames_count i = 0 /\
       (vi_transcription i = lit "Video processing requires moviepy library" \/
        exists msg, vi_transcription i = lit "Error processing video: " ++ msg)))) /\
  (exists i, _extract_audio_info rt st path = Return i /\
     (ai_transcription i
      = lit "Audio transcription requires Whisper or similar speech-to-text service" \/
      (ai_duration i = 0%Q /\ ai_sample_rate i = 0 /\
       (ai_transcription i = lit "Audio processing requires librosa library" \/
        exists msg, ai_transcription i = lit "Error processing audio: " ++ msg)))).
Proof.
  split.
  - unfold _extract_video_info, try_except. run_extractor;
      eexists; (split; [reflexivity|]);
      cbn [vi_frames_count vi_transcription vi_duration];
      (split; [lia|]); eauto 8.
  - unfold _extract_audio_info, try_except. run_extractor;
      eexists; (split; [reflexivity|]);
      cbn [ai_sample_rate ai_transcription ai_duration]; eauto 8.
Qed.

(** ** The repository's own test *)

(** [test_document_processing] of [test_rag.py]: the test document is
    ingested and the search for ["machine learning"] returns it. *)
Example test_document_processing :
  let st := after_document bare_runtime fresh
              (blit "This is a test document about machine learning and AI.")
              (lit "test.txt") in
  map (fun r => (Result.file_hash r, Result.filename r, Result.relevance_snippet r))
      (search st (lit "machine learning") None)
  = [(lit "fdccfb2882f315fda0731e238b63b391", lit "test.txt",
      lit "This is a test document about machine learning and AI.")].
Proof. vm_compute. reflexivity. Qed.

(** ** The kind filter of the query entry point *)

Lemma split_on_from_app (sep : ascii) (w cur s : str) :
  forallb (fun c => negb (Ascii.eqb c sep)) w = true ->
  split_on_from sep cur (w ++ s) = split_on_from sep (rev w ++ cur) s.
Proof.
  revert cur. induction w as [|c w IH]; intros cur H; [reflexivity|].
  simpl in H. apply andb_true_iff in H as [Hc Hw].
  apply negb_true_iff in Hc. cbn [app split_on_from]. rewrite Hc.
  rewrite IH by assumption. simpl. now rewrite <- app_assoc.
Qed.

(** Splitting at the commas what was joined by a comma and some padding
    gives the names back, padded but for the first. *)
Lemma split_on_join (pad : str) (rest : list str) :
  forallb (fun c => negb (Ascii.eqb c ","%char)) pad = true ->
  Forall (fun n => forallb (fun c => negb (Ascii.eqb c ","%char)) n = true) rest ->
  forall n cur,
  forallb (fun c => negb (Ascii.eqb c ","%char)) n = true ->
  split_on_from ","%char cur (join (","%char :: pad) (n :: rest))
  = (rev cur ++ n) :: map (app pad) rest.
Proof.
  intros Hpad. induction 1 as [|n' rest Hn' Hrest IH]; intros n cur Hn.
  - cbn [join map]. rewrite <- (app_nil_r n) at 1.
    rewrite split_on_from_app by assumption. cbn [split_on_from].
    now rewrite rev_app_distr, rev_involutive.
  - change (join (","%char :: pad) (n :: n' :: rest))
      with (n ++ ","%char :: (pad ++ join (","%char :: pad) (n' :: rest))).
    rewrite split_on_from_app by assumption.
    cbn [split_on_from]. rewrite Ascii.eqb_refl.
    rewrite rev_app_distr, rev_involutive.
    rewrite split_on_from_app by assumption. rewrite app_nil_r.
    rewrite (IH n' (rev pad) Hn'). now rewrite rev_involutive.
Qed.

Lemma lstrip_word (w : str) : is_word w = true -> lstrip w = w.
Proof.
  unfold is_word. destruct w as [|c w]; [reflexivity|]. cbn.
  intros H. apply andb_true_iff in H as [Hc _].
  apply negb_true_iff in Hc. now rewrite Hc.
Qed.

Lemma lstrip_pad (pad w : str) :
  forallb isspace pad = true -> lstrip (pad ++ w) = lstrip w.
Proof.
  induction pad as [|c pad IH]; intros H; [reflexivity|].
  simpl in H. apply andb_true_iff in H as [Hc Hp].
  cbn [app lstrip]. rewrite Hc. now apply IH.
Qed.

Lemma is_word_rev (w : str) : is_word (rev w) = is_word w.
Proof. unfold is_word. now rewrite truthy_rev, forallb_rev. Qed.

(** [strip] removes the padding in front of a word and leaves the word. *)
Lemma strip_padded_word (pad w : str) :
  forallb isspace pad = true -> is_word w = true -> strip (pad ++ w) = w.
Proof.
  intros Hp Hw. unfold strip. rewrite lstrip_pad by assumption.
  rewrite (lstrip_word w) by assumption.
  rewrite (lstrip_word (rev w)) by (now rewrite is_word_rev).
  apply rev_involutive.
Qed.

(** The kind filter of [GET /search] may be written with or without
    whitespace after the commas: for a non-empty query, a filter made of
    names joined by a comma and any whitespace is parsed into these names,
    and the reply is the engine's search under them, with its count. *)
Theorem search_files_parses_filter
    (st : State) (query pad : str) (names : list str) :
  query <> [] ->
  names <> [] ->
  forallb isspace pad = true ->
  Forall (fun n => is_filter_name n = true) names ->
  search_files st query (Some (join (","%char :: pad) names))
  = ([CallSearch query (Some names)],
     OK (mkSearchReply query (search st query (Some names))
           (len (search st query (Some names))))).
Proof.
  intros Hq Hn Hpad Hnames.
  destruct query as [|qc query]; [congruence|].
  destruct names as [|n rest]; [congruence|].
  inversion Hnames as [|? ? Hn0 Hrest]; subst.
  unfold is_filter_name in Hn0. apply andb_true_iff in Hn0 as [Hw0 Hc0].
  assert (Hpadc : forallb (fun c => negb (Ascii.eqb c ","%char)) pad = true).
  { apply forallb_forall. intros c Hc.
    rewrite forallb_forall in Hpad. specialize (Hpad c Hc).
    destruct (Ascii.eqb c ","%char) eqn:E; [|reflexivity].
    apply Ascii.eqb_eq in E. subst c. discriminate Hpad. }
  assert (Hjoin : truthy (join (","%char :: pad) (n :: rest)) = true).
  { unfold is_word in Hw0. destruct n as [|c n]; [discriminate|].
    cbn [join]. destruct rest; reflexivity. }
  assert (Hparse : map strip (split_on ","%char (join (","%char :: pad) (n :: rest)))
                   = n :: rest).
  { unfold split_on. rewrite (split_on_join pad rest Hpadc); [| |assumption].
    - cbn [rev app map]. f_equal.
      + apply (strip_padded_word [] n); [reflexivity | assumption].
      + rewrite map_map. clear Hnames Hjoin Hn.
        induction Hrest as [|x l Hx Hl IH]; [reflexivity|].
        cbn [map]. rewrite IH. f_equal.
        unfold is_filter_name in Hx. apply andb_true_iff in Hx as [Hx _].
        now apply strip_padded_word.
    - eapply Forall_impl; [|exact Hrest].
      intros x Hx. unfold is_filter_name in Hx.
      now apply andb_true_iff in Hx as [_ Hx]. }
  unfold search_files. cbn [truthy negb]. rewrite Hjoin, Hparse. reflexivity.
Qed.

Lemma search_files_parses_filter_witness :
  lit "hello" <> [] /\
  [lit "document"; lit "audio"] <> [] /\
  forallb isspace (lit " ") = true /\
  Forall (fun n => is_filter_name n = true) [lit "document"; lit "audio"] /\
  search_files hello_index (lit "hello") (Some (lit "document, audio"))
  = ([CallSearch (lit "hello") (Some [lit "document"; lit "audio"])],
     OK (mkSearchReply (lit "hello")
           (search hello_index (lit "hello") (Some [lit "document"; lit "audio"]))
           (len (search hello_index (lit "hello")
                   (Some [lit "document"; lit "audio"]))))).
Proof.
  split; [discriminate|]. split; [discriminate|]. split; [reflexivity|].
  split; [repeat constructor|].
  apply (search_files_parses_filter hello_index (lit "hello") (lit " ")
           [lit "document"; lit "audio"]).
  - discriminate.
  - discriminate.
  - reflexivity.
  - repeat constructor.
Defined.

(** ** The PDF extractor *)

(** With PyPDF2 at hand the text of a PDF is all or nothing: when every
    page gives its text, the result is each text followed by a newline, in
    page order; when a page fails, the result is the error text with that
    page's message, and the text of the pages before it is dropped. *)
Theorem pdf_text_all_or_nothing
    (rt : Runtime) (file_content : bytes) (u : unit) (pages : list (Exc str)) :
  import_PyPDF2 rt = Return u ->
  PdfReader_pages rt file_content = Return pages ->
  (forall texts, pages = map Return texts ->
     _extract_pdf_text rt file_content
     = Return (flat_map (fun t => t ++ newline) texts)) /\
  (forall before msg after,
     pages = map Return before ++ Raise (Exception msg) :: after ->
     _extract_pdf_text rt file_content
     = Return (lit "Error extracting PDF text: " ++ msg)).
Proof.
  intros Hi Hp. unfold _extract_pdf_text. rewrite Hi, Hp. cbn [bind]. split.
  - intros texts ->. now rewrite pdf_pages_fold.
  - intros before msg after ->. rewrite fold_left_app, pdf_pages_fold.
    cbn [fold_left bind]. now rewrite pdf_pages_fold_raise.
Qed.

Lemma pdf_text_all_or_nothing_witness :
  import_PyPDF2 two_page_runtime = Return tt /\
  PdfReader_pages two_page_runtime (blit "%PDF")
  = Return [Return (lit "page one"); Return (lit "page two")] /\
  _extract_pdf_text two_page_runtime (blit "%PDF")
  = Return (lit "page one" ++ newline ++ lit "page two" ++ newline).
Proof.
  split; [reflexivity|]. split; [reflexivity|].
  destruct (pdf_text_all_or_nothing two_page_runtime (blit "%PDF") tt
              [Return (lit "page one"); Return (lit "page two")]
              eq_refl eq_refl) as [H _].
  exact (H [lit "page one"; lit "page two"] eq_refl).
Defined.

(** ** Ingesting again *)

Lemma dict_set_idem {V : Type} (d : dict V) (k : str) (v : V) :
  dict_set (dict_set d k v) k v = dict_set d k v.
Proof.
  induction d as [|[k0 v0] d IH]; cbn [dict_set].
  - now rewrite str_eqb_refl.
  - destruct (str_eqb k0 k) eqn:E; cbn [dict_set]; rewrite E; [reflexivity|].
    now rewrite IH.
Qed.

Lemma committed_idem (st : State) (path : str) (c : bytes) (h : str) (m : Metadata) :
  committed (committed st path c h m) path c h m = committed st path c h m.
Proof.
  unfold committed, _save_metadata, set_metadata, write_file.
  cbn [doc_dir video_dir audio_dir embeddings_dir files metadata_json metadata].
  now rewrite !dict_set_idem.
Qed.

(** The media extractors read the state through the one file only. *)
Lemma _extract_video_info_file (rt : Runtime) (s s' : State) (path : str) :
  dict_get (files s) path = dict_get (files s') path ->
  _extract_video_info rt s path = _extract_video_info rt s' path.
Proof. intros H. unfold _extract_video_info. now rewrite H. Qed.

Lemma _extract_audio_info_file (rt : Runtime) (s s' : State) (path : str) :
  dict_get (files s) path = dict_get (files s') path ->
  _extract_audio_info rt s path = _extract_audio_info rt s' path.
Proof. intros H. unfold _extract_audio_info. now rewrite H. Qed.

(** With extractors that answer alike for the same file, ingesting a file a
    second time right after the first is a no-op: it returns the same
    response and leaves the whole state (blobs, index, snapshot) as the
    first ingestion left it. *)
Theorem reingestion_changes_nothing
    (rt : Runtime) (k : Kind) (st : State) (c : bytes) (f : str) :
  exists st1 r,
    process rt k st c f = Return (st1, r) /\
    process rt k st1 c f = Return (st1, r).
Proof.
  destruct k; cbn [process].
  - destruct (document_text_returns rt (lower (path_suffix rt f)) c) as [text Ht].
    unfold process_document. rewrite Ht. cbn [bind].
    eexists; eexists. split; [reflexivity|].
    do 2 f_equal. apply committed_idem.
  - destruct (_extract_video_info_returns rt
                (write_file st (blob_path rt st video c f) c)
                (blob_path rt st video c f)) as [i Hi].
    rewrite (process_video_eq rt st c f i Hi).
    eexists; eexists. split; [reflexivity|].
    rewrite (process_video_eq rt _ c f i).
    + do 2 f_equal. apply committed_idem.
    + rewrite <- Hi. apply _extract_video_info_file.
      cbn [files write_file committed _save_metadata set_metadata].
      unfold blob_path. cbn [kind_dir video_dir].
      now rewrite !dict_get_set_same.
  - destruct (_extract_audio_info_returns rt
                (write_file st (blob_path rt st audio c f) c)
                (blob_path rt st audio c f)) as [i Hi].
    rewrite (process_audio_eq rt st c f i Hi).
    eexists; eexists. split; [reflexivity|].
    rewrite (process_audio_eq rt _ c f i).
    + do 2 f_equal. apply committed_idem.
    + rewrite <- Hi. apply _extract_audio_info_file.
      cbn [files write_file committed _save_metadata set_metadata].
      unfold blob_path. cbn [kind_dir audio_dir].
      now rewrite !dict_get_set_same.
Qed.

(** ** The case of the query *)

(** Two queries whose lower-cased forms are equal select the same records,
    in the same order; when the two queries are also of the same length (as
    are queries that differ in the case of ASCII letters only), the results
    are the same altogether, snippets included. *)
Theorem search_ignores_query_case
    (st : State) (q1 q2 : str) (file_types : option (list str)) :
  lower q1 = lower q2 ->
  map (fun r => (Result.file_hash r, Result.filename r, Result.file_type r,
                 Result.metadata r))
      (search st q1 file_types)
  = map (fun r => (Result.file_hash r, Result.filename r, Result.file_type r,
                   Result.metadata r))
        (search st q2 file_types) /\
  (len q1 = len q2 -> search st q1 file_types = search st q2 file_types).
Proof.
  intros H. rewrite !search_filter.
  assert (Hsel : forall item, selected q1 file_types item = selected q2 file_types item).
  { intros item. unfold selected, matches. now rewrite H. }
  rewrite (filter_ext _ _ Hsel). split.
  - rewrite !map_map. apply map_ext. now intros [h m].
  - intros Hlen. apply map_ext. intros [h m].
    unfold result_of, _get_snippet. now rewrite H, Hlen.
Qed.

Lemma search_ignores_query_case_witness :
  lower (lit "HeLLo") = lower (lit "hello") /\
  len (lit "HeLLo") = len (lit "hello") /\
  search hello_index (lit "HeLLo") None = search hello_index (lit "hello") None.
Proof.
  split; [reflexivity|]. split; [reflexivity|].
  destruct (search_ignores_query_case hello_index (lit "HeLLo") (lit "hello") None)
    as [_ H].
  - reflexivity.
  - apply H. reflexivity.
Defined.
